(** * r10k-go: the module fetch pipeline

    A shallow embedding of [main.go] (the worker, the deduplicator and the
    result aggregator) and of the GitHub tarball module
    ([GithubTarballModule]), with the properties of the fetch pipeline
    stated over it.

    Go strings are [string]; a Go [error] value is an [option string]
    ([None] is [nil], [Some msg] carries the message); the filesystem is a
    finite map from paths to nodes; the network is an oracle that answers
    each request.  A call that ends the process ([log.Fatal]) or panics
    (an index out of range) is an outcome of its own in [Run]. *)

From Stdlib Require Import String Ascii ZArith List Lia.
From stdpp Require Import base option list gmap strings.

Local Open Scope string_scope.
Local Open Scope list_scope.
Local Open Scope Z_scope.

(** ** Outcomes of a Go call *)

Inductive Run (A : Type) : Type :=
| Ret (a : A)              (* the call returns *)
| Fatal (msg : string)     (* log.Fatal: the process exits with status 1 *)
| Panic (msg : string).    (* runtime panic: the process crashes *)

Arguments Ret {A} a.
Arguments Fatal {A} msg.
Arguments Panic {A} msg.

#[global] Instance Run_ret : MRet Run := @Ret.
#[global] Instance Run_bind : MBind Run := fun A B f r =>
  match r with
  | Ret a => f a
  | Fatal msg => Fatal msg
  | Panic msg => Panic msg
  end.

(** ** Go's [strings] and [path] packages *)

Module GoStrings.

(** [strings.FieldsFunc(s, f)]: the maximal non-empty runs of characters
    that do not satisfy [f].  [cur] is the field being read ([None] when
    the scan is between fields, Go's [start < 0]). *)
Fixpoint fields_go (f : ascii -> bool) (cur : option string) (s : string)
  : list string :=
  match s with
  | EmptyString => match cur with Some w => [w] | None => [] end
  | String c s' =>
      if f c then
        match cur with
        | Some w => w :: fields_go f None s'
        | None => fields_go f None s'
        end
      else
        match cur with
        | Some w => fields_go f (Some (w +:+ String c "")) s'
        | None => fields_go f (Some (String c "")) s'
        end
  end.

Definition FieldsFunc (s : string) (f : ascii -> bool) : list string :=
  fields_go f None s.

(** [strings.Split(s, "/")]: the pieces between slashes, empty pieces
    included; never the empty list. *)
Fixpoint split_slash (s : string) : list string :=
  match s with
  | EmptyString => [""]
  | String c s' =>
      if Ascii.eqb c "/" then "" :: split_slash s'
      else match split_slash s' with
           | w :: ws => String c w :: ws
           | [] => [String c ""]
           end
  end.

End GoStrings.

Module GoPath.

(** One step of [path.Clean] on the stack of segments kept so far (top
    first): empty and [.] segments vanish, [..] removes the segment before
    it, or is kept at the start of a path that is not rooted. *)
Definition clean_step (rooted : bool) (out : list string) (seg : string)
  : list string :=
  if String.eqb seg "" || String.eqb seg "." then out
  else if String.eqb seg ".." then
    match out with
    | top :: out' =>
        if String.eqb top ".." then seg :: out else out'
    | [] => if rooted then [] else [seg]
    end
  else seg :: out.

Definition is_rooted (p : string) : bool :=
  match p with
  | String c _ => Ascii.eqb c "/"
  | EmptyString => false
  end.

(** [path.Clean]. *)
Definition Clean (p : string) : string :=
  let rooted := is_rooted p in
  let out := rev (fold_left (clean_step rooted) (GoStrings.split_slash p) []) in
  if rooted then "/" +:+ String.concat "/" out
  else match out with
       | [] => "."
       | _ => String.concat "/" out
       end.

Fixpoint drop_empty (elem : list string) : list string :=
  match elem with
  | e :: rest => if String.eqb e "" then drop_empty rest else elem
  | [] => []
  end.

(** [path.Join]: leading empty elements are ignored, the others are
    joined with slashes and the result is cleaned; the empty string when
    every element is empty. *)
Definition Join (elem : list string) : string :=
  match drop_empty elem with
  | [] => ""
  | l => Clean (String.concat "/" l)
  end.

End GoPath.

(** ** The environment: filesystem and network *)

Inductive node : Type :=
| Dir
| File (content : string).

#[global] Instance node_eq_dec : EqDecision node.
Proof. solve_decision. Defined.

(** An HTTP response: [Body] is [None] when reading the body fails. *)
Record Response : Type := {
  StatusCode : Z;
  Status : string;
  Body : option string
}.

Inductive GetResult : Type :=
| GetFails (msg : string)      (* http.Get returned an error *)
| GetOk (resp : Response).

Record World : Type := {
  fs : gmap string node;            (* the paths that exist *)
  locked : gset string;             (* paths that cannot be removed *)
  net : nat -> string -> GetResult; (* the answer to the n-th request *)
  requests : list string;           (* URLs requested so far, oldest first *)
  stdout : list string              (* lines printed with fmt.Println *)
}.

Definition set_fs (f : gmap string node) (w : World) : World :=
  {| fs := f; locked := locked w; net := net w;
     requests := requests w; stdout := stdout w |}.

Definition println (line : string) (w : World) : World :=
  {| fs := fs w; locked := locked w; net := net w;
     requests := requests w; stdout := stdout w ++ [line] |}.

(** [http.Get]: the request is recorded and the oracle answers it. *)
Definition http_Get (url : string) (w : World) : GetResult * World :=
  (net w (length (requests w)) url,
   {| fs := fs w; locked := locked w; net := net w;
      requests := requests w ++ [url]; stdout := stdout w |}).

(** Go's [error]: [None] is [nil]. *)
Definition error := option string.

(** [os.Stat], keeping only the error. *)
Definition os_Stat (p : string) (w : World) : error :=
  match fs w !! p with
  | Some _ => None
  | None => Some ("stat " +:+ p +:+ ": no such file or directory")
  end.

(** [ioutil.ReadFile]. *)
Definition ioutil_ReadFile (p : string) (w : World) : string + string :=
  match fs w !! p with
  | Some (File c) => inl c
  | Some Dir => inr ("read " +:+ p +:+ ": is a directory")
  | None => inr ("open " +:+ p +:+ ": no such file or directory")
  end.

(** [q] is [p] or lies below [p]. *)
Definition under (p q : string) : bool :=
  String.eqb p q || String.prefix (p +:+ "/") q.

(** [os.RemoveAll]: removes [p] and everything below it; fails when one of
    these paths is locked. *)
Definition os_RemoveAll (p : string) (w : World) : error * World :=
  if decide (set_Exists (fun q => under p q = true) (locked w)) then
    (Some ("unlinkat " +:+ p +:+ ": permission denied"), w)
  else
    (None, set_fs (filter (fun kv => under p kv.1 = false) (fs w)) w).

(** [os.MkdirAll]: nothing to do on a directory, an error on a file.  Parent
    directories are not tracked in this model. *)
Definition os_MkdirAll (p : string) (w : World) : error * World :=
  match fs w !! p with
  | Some (File _) => (Some ("mkdir " +:+ p +:+ ": not a directory"), w)
  | _ => (None, set_fs (<[p := Dir]> (fs w)) w)
  end.

(** [os.Create]: creates or truncates the file. *)
Definition os_Create (p : string) (w : World) : error * World :=
  match fs w !! p with
  | Some Dir => (Some ("open " +:+ p +:+ ": is a directory"), w)
  | _ => (None, set_fs (<[p := File ""]> (fs w)) w)
  end.

(** [io.Copy] of a response body into the file at [p]: nothing is written
    when the body cannot be read. *)
Definition io_Copy (p : string) (body : option string) (w : World)
  : error * World :=
  match body with
  | Some bytes => (None, set_fs (<[p := File bytes]> (fs w)) w)
  | None => (Some "unexpected EOF", w)
  end.

(** [os.Open]: the node at [p]. *)
Definition os_Open (p : string) (w : World) : node + string :=
  match fs w !! p with
  | Some n => inl n
  | None => inr ("open " +:+ p +:+ ": no such file or directory")
  end.

(** [os.OpenFile(p, os.O_RDWR|os.O_CREATE, 0644)]: the file is created when
    it is missing and is not truncated when it exists. *)
Definition os_OpenFile_create (p : string) (w : World) : error * World :=
  match fs w !! p with
  | Some Dir => (Some ("open " +:+ p +:+ ": is a directory"), w)
  | Some (File _) => (None, w)
  | None => (None, set_fs (<[p := File ""]> (fs w)) w)
  end.

Fixpoint string_drop (n : nat) (s : string) : string :=
  match n, s with
  | O, _ => s
  | S n', String _ s' => string_drop n' s'
  | S _, EmptyString => EmptyString
  end.

(** [WriteString] at offset 0 of a file just opened: the first bytes are
    overwritten, the rest of an older, longer content stays. *)
Definition WriteString (p : string) (s : string) (w : World) : World :=
  match fs w !! p with
  | Some (File old) =>
      set_fs (<[p := File (s +:+ string_drop (String.length s) old)]> (fs w)) w
  | _ => w
  end.

(** ** [main.go]: errors and results *)

Record DownloadError : Type := {
  err_error : error;
  retryable : bool
}.

(** The [processed] closure of a declaration ([func() { wg.Done() }], handed
    to [Process] in [processModuleFiles]): every call of it is one
    [wg.Done()].  The number is a tag that tells the calls made for one
    declaration from the calls made for another. *)
Definition Callback := nat.

(** ** The GitHub tarball module *)

Module GH.
(** One element of [GHModuleReleases]. *)
Record Release : Type := {
  Name : string;
  Tarball_url : string
}.
End GH.

Definition GHModuleReleases := list GH.Release.

Record GithubTarballModule : Type := {
  name : string;
  repoName : string;
  version : string;
  cacheFolder : string;
  envRoot : string;
  installPath : string;
  processed : Callback
}.

(** What [downloadURL] returns as its [error]: a [*DownloadError] built in
    place, or the decoder's own error. *)
Inductive URLError : Type :=
| Classified (d : DownloadError)
| Plain (msg : string).

Definition URLError_message (e : URLError) : string :=
  match e with
  | Classified d => default "" (err_error d)
  | Plain msg => msg
  end.

Module Github.

Definition set_version (v : string) (m : GithubTarballModule) :=
  {| name := name m; repoName := repoName m; version := v;
     cacheFolder := cacheFolder m; envRoot := envRoot m;
     installPath := installPath m; processed := processed m |}.

Definition Name (m : GithubTarballModule) : string := name m.

Definition SetEnvRoot (s : string) (m : GithubTarballModule) :=
  {| name := name m; repoName := repoName m; version := version m;
     cacheFolder := cacheFolder m; envRoot := s;
     installPath := installPath m; processed := processed m |}.

Definition Processed (m : GithubTarballModule) : Callback := processed m.

Definition is_separator (r : ascii) : bool :=
  Ascii.eqb r "/" || Ascii.eqb r "-".

Definition TargetFolder (m : GithubTarballModule) : Run string :=
  if String.eqb (envRoot m) "" then Fatal "Environment root not defined"
  else
    let splitPath := GoStrings.FieldsFunc (name m) is_separator in
    match last splitPath with
    | None => Panic "index out of range [-1]"
    | Some folderName =>
        if String.eqb folderName "" then Fatal "Oups"
        else if negb (String.eqb (installPath m) "") then
          Ret (GoPath.Join [envRoot m; installPath m; folderName])
        else
          Ret (GoPath.Join [envRoot m; "modules"; folderName])
    end.

Definition SetCacheFolder (c : string) (m : GithubTarballModule) :=
  {| name := name m; repoName := repoName m; version := version m;
     cacheFolder := c; envRoot := envRoot m;
     installPath := installPath m; processed := processed m |}.

Definition IsUpToDate (m : GithubTarballModule) (w : World)
  : Run (bool * World) :=
  t ← TargetFolder m;
  match os_Stat t w with
  | Some _ => Ret (false, w)
  | None =>
      if String.eqb (version m) "" then Ret (true, w)
      else
        t' ← TargetFolder m;
        let versionFile := GoPath.Join [t'; ".version"] in
        match ioutil_ReadFile versionFile w with
        | inr e => Ret (false, println ("Error opening version file :" +:+ e) w)
        | inl v => Ret (String.eqb v (version m), w)
        end
  end.

Definition downloadToCache (m : GithubTarballModule) (r : option string)
    (w : World) : error * World :=
  match os_MkdirAll (GoPath.Join [cacheFolder m]) w with
  | (Some e, w) => (Some e, w)
  | (None, w) =>
      let out := GoPath.Join [cacheFolder m; version m +:+ ".tar.gz"] in
      match os_Create out w with
      | (Some e, w) => (Some e, w)
      | (None, w) => io_Copy out r w
      end
  end.

(** The [for i, result := range gr] loop of [downloadURL]: the index of
    the first release named [v], counted from [i]. *)
Fixpoint find_version (v : string) (i : nat) (gr : GHModuleReleases)
  : option nat :=
  match gr with
  | [] => None
  | result :: rest =>
      if String.eqb v (GH.Name result) then Some i
      else find_version v (S i) rest
  end.

Definition tags_url (m : GithubTarballModule) : string :=
  "https://api.github.com" +:+ "/repos/" +:+ repoName m +:+ "/tags".

Section Externals.

(** [json.Unmarshal] into a [GHModuleReleases]: the releases, or the
    decoder's error. *)
Variable json_Unmarshal : string -> GHModuleReleases + string.

(** [extract(r, target)] of this repository (its file is not among the
    sources at hand): unpacks the opened node into the target folder. *)
Variable extract :
  node -> string -> gmap string node -> error * gmap string node.

(** SHA-1 followed by URL-safe base64. *)
Variable sha1_base64 : string -> string.

Definition Hash (m : GithubTarballModule) : string :=
  sha1_base64 (name m).

Definition downloadURL (m : GithubTarballModule) (w : World)
  : Run ((string + URLError) * GithubTarballModule * World) :=
  let url := tags_url m in
  let '(resp, w) := http_Get url w in
  match resp with
  | GetFails e =>
      Ret (inr (Classified {| err_error := Some e; retryable := true |}), m, w)
  | GetOk resp =>
      if negb (StatusCode resp =? 200) then
        Ret (inr (Classified
                    {| err_error := Some ("failed retrieving URL - " +:+ Status resp);
                       retryable := true |}), m, w)
      else
      match Body resp with
      | None =>
          Ret (inr (Classified
                      {| err_error := Some "unexpected EOF";
                         retryable := true |}), m, w)
      | Some body =>
          match json_Unmarshal body with
          | inr e => Ret (inr (Plain e), m, w)
          | inl gr =>
              if negb (String.eqb (version m) "") then
                match find_version (version m) 0 gr with
                | None =>
                    Ret (inr (Classified
                                {| err_error :=
                                     Some ("Could not find version " +:+ version m
                                           +:+ " for module " +:+ Name m);
                                   retryable := false |}), m, w)
                | Some index =>
                    match gr !! index with
                    | Some rel => Ret (inl (GH.Tarball_url rel), m, w)
                    | None => Panic "index out of range"
                    end
                end
              else
                match gr !! 0%nat with
                | None => Panic "index out of range [0] with length 0"
                | Some first =>
                    let m := set_version (GH.Name first) m in
                    Ret (inl (GH.Tarball_url first), m, w)
                end
          end
      end
  end.

Definition cache_blob (m : GithubTarballModule) : string :=
  GoPath.Join [cacheFolder m; version m +:+ ".tar.gz"].

Definition Download (m : GithubTarballModule) (w : World)
  : Run (DownloadError * GithubTarballModule * World) :=
  '(res, m, w) ← downloadURL m w;
  match res with
  | inr err =>
      Ret ({| err_error := Some (URLError_message err); retryable := true |}, m, w)
  | inl url =>
    let fetched : (DownloadError * World) + World :=
      match os_Stat (cache_blob m) w with
      | Some _ =>
          let '(forgeArchive, w) := http_Get url w in
          match forgeArchive with
          | GetFails _ =>
              inl ({| err_error := Some ("Failed retrieving " +:+ url);
                      retryable := true |}, w)
          | GetOk resp => inr (snd (downloadToCache m (Body resp) w))
          end
      | None => inr w
      end in
    match fetched with
    | inl (derr, w) => Ret (derr, m, w)
    | inr w =>
        match os_Open (cache_blob m) w with
        | inr e => Ret ({| err_error := Some e; retryable := false |}, m, w)
        | inl r =>
            t ← TargetFolder m;
            let '(err, fs') := extract r t (fs w) in
            let w := set_fs fs' w in
            match err with
            | Some e =>
                Ret ({| err_error := Some e; retryable := false |}, m, w)
            | None =>
                t' ← TargetFolder m;
                let versionFile := GoPath.Join [t'; ".version"] in
                match os_OpenFile_create versionFile w with
                | (Some _, w) =>
                    Ret ({| err_error := Some ("Failed creating file " +:+ versionFile);
                            retryable := false |}, m, w)
                | (None, w) =>
                    let w := WriteString versionFile (version m) w in
                    Ret ({| err_error := None; retryable := false |}, m, w)
                end
            end
        end
    end
  end.

End Externals.

End Github.

(** ** [main.go]: the module interface *)

(** [PuppetModule].  A module is a pointer in Go; here a method that changes
    the module returns the new module. *)
Class PuppetModule (M : Type) : Type := {
  Name : M -> string;
  Download : M -> World -> Run (DownloadError * M * World);
  SetEnvRoot : string -> M -> M;
  TargetFolder : M -> Run string;
  SetCacheFolder : string -> M -> M;
  Hash : M -> string;
  IsUpToDate : M -> World -> Run (bool * World);
  Processed : M -> Callback
}.

(** [GithubTarballModule] implements the interface. *)
Definition GithubTarballModule_PuppetModule
    (json_Unmarshal : string -> GHModuleReleases + string)
    (extract : node -> string -> gmap string node -> error * gmap string node)
    (sha1_base64 : string -> string)
  : PuppetModule GithubTarballModule := {|
  Name := Github.Name;
  Download := Github.Download json_Unmarshal extract;
  SetEnvRoot := Github.SetEnvRoot;
  TargetFolder := Github.TargetFolder;
  SetCacheFolder := Github.SetCacheFolder;
  Hash := Github.Hash sha1_base64;
  IsUpToDate := Github.IsUpToDate;
  Processed := Github.Processed
|}.

Record DownloadResult (M : Type) : Type := {
  err : DownloadError;
  skipped : bool;
  willRetry : bool;
  m : M
}.

Arguments err {M} _.
Arguments skipped {M} _.
Arguments willRetry {M} _.
Arguments m {M} _.

(** What a worker does, in order. *)
Inductive WorkerEvent (M : Type) : Type :=
| EvRemoveAll (p : string)             (* os.RemoveAll(m.TargetFolder()) *)
| EvDownload (derr : DownloadError)    (* m.Download() and what it returned *)
| EvSend (r : DownloadResult M)        (* go func() { results <- r }() *)
| EvSleep (d : Z).                     (* time.Sleep(d), in nanoseconds *)

Arguments EvRemoveAll {M} p.
Arguments EvDownload {M} derr.
Arguments EvSend {M} r.
Arguments EvSleep {M} d.

(** Go's [int] on a 64-bit platform. *)
Definition wrap_int (x : Z) : Z := (x + 2 ^ 63) mod 2 ^ 64 - 2 ^ 63.

Definition Second : Z := 1000000000.

(** The state of the aggregator ([parseResults]) with what it has done. *)
Record Aggregator (MF : Type) : Type := {
  downloadErrors : Z;
  logged : list string;       (* lines written with the log package *)
  wg : Z;                     (* the WaitGroup counter *)
  metadataFiles : list MF;    (* files sent on the module-file channel *)
  done_calls : list Callback  (* Processed() calls, oldest first *)
}.

Arguments downloadErrors {MF} _.
Arguments logged {MF} _.
Arguments wg {MF} _.
Arguments metadataFiles {MF} _.
Arguments done_calls {MF} _.

Section Pipeline.

Context {M : Type} {ops : PuppetModule M}.

(** [moduleFile] and [NewMetadataFile(path)] of this repository (their
    file is not among the sources at hand): the metadata file object, or
    [None] for [nil]. *)
Variable moduleFile : Type.
Variable NewMetadataFile : string -> option moduleFile.

Definition maxTries : Z := 3.
Definition retryDelay : Z := 5 * Second.

Definition is_error (derr : DownloadError) : bool :=
  match err_error derr with Some _ => true | None => false end.

(** The retry loop of [downloadModules]; [left] counts the iterations
    that [i < maxTries-1] still allows. *)
Fixpoint retry_loop (left : nat) (derr : DownloadError) (m0 : M) (w : World)
    (trace : list (WorkerEvent M))
  : Run (DownloadError * M * World * list (WorkerEvent M)) :=
  match left with
  | O => Ret (derr, m0, w, trace)
  | S left' =>
      if is_error derr && retryable derr then
        let trace := trace ++
          [EvSend {| err := derr; skipped := false; willRetry := true; m := m0 |};
           EvSleep retryDelay] in
        '(derr, m0, w) ← Download m0 w;
        retry_loop left' derr m0 w (trace ++ [EvDownload derr])
      else Ret (derr, m0, w, trace)
  end.

Definition no_error : DownloadError := {| err_error := None; retryable := false |}.

(** The body of the [for m := range c] loop of [downloadModules]. *)
Definition downloadModule (m0 : M) (w : World)
  : Run (list (WorkerEvent M) * M * World) :=
  '(up, w) ← IsUpToDate m0 w;
  if (up : bool) then
    Ret ([EvSend {| err := no_error; skipped := true; willRetry := false; m := m0 |}],
         m0, w)
  else
    t ← TargetFolder m0;
    match os_RemoveAll t w with
    | (Some _, _) =>
        t' ← TargetFolder m0;
        Fatal ("Error removing folder: " +:+ t')
    | (None, w) =>
        '(derr, m0, w) ← Download m0 w;
        '(derr, m0, w, trace) ←
          retry_loop (Z.to_nat (maxTries - 1)) derr m0 w
                     [EvRemoveAll t; EvDownload derr];
        if is_error derr then
          Ret (trace ++
               [EvSend {| err := derr; skipped := false; willRetry := false; m := m0 |}],
               m0, w)
        else
          Ret (trace ++
               [EvSend {| err := no_error; skipped := false; willRetry := false; m := m0 |}],
               m0, w)
    end.

(** [downloadModules] on the modules one worker receives. *)
Fixpoint downloadModules (c : list M) (w : World)
  : Run (list (WorkerEvent M) * World) :=
  match c with
  | [] => Ret ([], w)
  | m0 :: rest =>
      '(trace, _, w) ← downloadModule m0 w;
      '(trace', w) ← downloadModules rest w;
      Ret (trace ++ trace', w)
  end.

(** The results a worker sent, the downloads it made and the folders it
    removed. *)
Definition sent (trace : list (WorkerEvent M)) : list (DownloadResult M) :=
  omap (fun e => match e with EvSend r => Some r | _ => None end) trace.

Definition downloads (trace : list (WorkerEvent M)) : list DownloadError :=
  omap (fun e => match e with EvDownload d => Some d | _ => None end) trace.

Definition removals (trace : list (WorkerEvent M)) : list string :=
  omap (fun e => match e with EvRemoveAll p => Some p | _ => None end) trace.

(** [deduplicate]: the modules sent on [out] and the modules whose
    [Processed] was called, each in order.  [modules] is the Go map. *)
Fixpoint deduplicate_loop (cache_folder environmentRootFolder : string)
    (modules : gmap string bool) (input : list M)
  : Run (list M * list M) :=
  match input with
  | [] => Ret ([], [])
  | m0 :: rest =>
      let m0 := SetEnvRoot environmentRootFolder m0 in
      let m0 := SetCacheFolder (GoPath.Join [cache_folder; Hash m0]) m0 in
      t ← TargetFolder m0;
      match modules !! t with
      | Some _ =>
          '(out, dropped) ← deduplicate_loop cache_folder environmentRootFolder
                               modules rest;
          Ret (out, m0 :: dropped)
      | None =>
          t' ← TargetFolder m0;
          '(out, dropped) ← deduplicate_loop cache_folder environmentRootFolder
                               (<[t' := true]> modules) rest;
          Ret (m0 :: out, dropped)
      end
  end.

Definition deduplicate (input : list M) (cache_folder environmentRootFolder : string)
  : Run (list M * list M) :=
  deduplicate_loop cache_folder environmentRootFolder ∅ input.

(** [res.m.Processed()] in the aggregator: the closure runs [wg.Done()]. *)
Definition call_Processed (m0 : M) (st : Aggregator moduleFile)
  : Aggregator moduleFile :=
  {| downloadErrors := downloadErrors st; logged := logged st;
     wg := wg st - 1; metadataFiles := metadataFiles st;
     done_calls := done_calls st ++ [Processed m0] |}.

Definition log_line (line : string) (st : Aggregator moduleFile)
  : Aggregator moduleFile :=
  {| downloadErrors := downloadErrors st; logged := logged st ++ [line];
     wg := wg st; metadataFiles := metadataFiles st;
     done_calls := done_calls st |}.

Definition count_error (st : Aggregator moduleFile) : Aggregator moduleFile :=
  {| downloadErrors := wrap_int (downloadErrors st + 1); logged := logged st;
     wg := wg st; metadataFiles := metadataFiles st;
     done_calls := done_calls st |}.

(** [wg.Add(1)] and [go func() { metadataFiles <- mf }()]. *)
Definition enqueue (mf : moduleFile) (st : Aggregator moduleFile)
  : Aggregator moduleFile :=
  {| downloadErrors := downloadErrors st; logged := logged st;
     wg := wg st + 1; metadataFiles := metadataFiles st ++ [mf];
     done_calls := done_calls st |}.

(** The body of the [for res := range results] loop of [parseResults]. *)
Definition parseResult (downloadDeps : bool) (st : Aggregator moduleFile)
    (res : DownloadResult M) : Run (Aggregator moduleFile) :=
  match err_error (err res) with
  | Some e =>
      if retryable (err res) && willRetry res then
        Ret (log_line ("failed downloading " +:+ Name (m res) +:+ ": " +:+ e
                       +:+ "... Retrying") st)
      else
        let st := log_line ("failed downloading " +:+ Name (m res) +:+ ": " +:+ e
                            +:+ ". Giving up!") st in
        let st := count_error st in
        Ret (call_Processed (m res) st)
  | None =>
      let st := if negb (skipped res)
                then log_line ("Downloaded " +:+ Name (m res)) st else st in
      st ← (if downloadDeps then
              t ← TargetFolder (m res);
              match NewMetadataFile (GoPath.Join [t; "metadata.json"]) with
              | Some mf => Ret (enqueue mf st)
              | None => Ret st
              end
            else Ret st);
      Ret (call_Processed (m res) st)
  end.

Fixpoint parseResults_loop (downloadDeps : bool) (st : Aggregator moduleFile)
    (results : list (DownloadResult M)) : Run (Aggregator moduleFile) :=
  match results with
  | [] => Ret st
  | res :: rest =>
      st ← parseResult downloadDeps st res;
      parseResults_loop downloadDeps st rest
  end.

(** [parseResults]: the aggregator starts with no error counted; [pending]
    is the WaitGroup counter when it starts.  The count it ends with is
    what it sends on [errorsCount]. *)
Definition Aggregator_start (pending : Z) : Aggregator moduleFile :=
  {| downloadErrors := 0; logged := []; wg := pending;
     metadataFiles := []; done_calls := [] |}.

Definition parseResults (results : list (DownloadResult M)) (downloadDeps : bool)
    (pending : Z) : Run (Aggregator moduleFile) :=
  parseResults_loop downloadDeps (Aggregator_start pending) results.

(** [main]: [nErr := <-errorCount; os.Exit(nErr)]. *)
Definition exit_code (st : Aggregator moduleFile) : Z := downloadErrors st.

End Pipeline.

Arguments call_Processed {M ops moduleFile} m0 st.
Arguments log_line {moduleFile} line st.
Arguments count_error {moduleFile} st.
Arguments enqueue {moduleFile} mf st.
Arguments parseResult {M ops moduleFile} NewMetadataFile downloadDeps st res.
Arguments parseResults_loop {M ops moduleFile} NewMetadataFile downloadDeps st results.
Arguments parseResults {M ops moduleFile} NewMetadataFile results downloadDeps pending.
Arguments exit_code {moduleFile} st.
Arguments Aggregator_start {moduleFile} pending.

(** ** Plain paths *)

(** A segment that [path.Clean] keeps as it is. *)
Definition plain_segment (s : string) : bool :=
  negb (String.eqb s "" || String.eqb s "." || String.eqb s "..").

(** A relative path made of plain segments only. *)
Definition is_plain (p : string) : bool :=
  forallb plain_segment (GoStrings.split_slash p).

(** A plain path, relative or rooted. *)
Definition clean_path (p : string) : bool :=
  match p with
  | String c r => if Ascii.eqb c "/" then is_plain r else is_plain p
  | EmptyString => false
  end.

Fixpoint all_chars (P : ascii -> bool) (s : string) : bool :=
  match s with
  | EmptyString => true
  | String c s' => P c && all_chars P s'
  end.

(** ** The specification's wording, for comparison *)

Module Spec.

(** The last path segment of a module name: what follows its last slash. *)
Definition leaf_name (n : string) : string :=
  default "" (last (GoStrings.split_slash n)).

(** [<env-root>/<install-subpath or "modules">/<leaf-name>]. *)
Definition target_folder (m : GithubTarballModule) : string :=
  envRoot m +:+ "/"
  +:+ (if String.eqb (installPath m) "" then "modules" else installPath m)
  +:+ "/" +:+ leaf_name (name m).

End Spec.

(** The install sub-path that [TargetFolder] uses. *)
Definition install_subpath (m : GithubTarballModule) : string :=
  if String.eqb (installPath m) "" then "modules" else installPath m.

(** ** Sample declarations and environments *)

Definition my_widget : GithubTarballModule :=
  {| name := "acme/my-widget"; repoName := "acme/puppet-my-widget";
     version := "1.0.0"; cacheFolder := ".cache/widget";
     envRoot := "/srv/puppet"; installPath := ""; processed := 0%nat |}.

(** The double quote, for JSON texts. *)
Definition dq : string := String (ascii_of_nat 34) "".

(** The JSON text of a tags listing. *)
Definition tags_json (gr : GHModuleReleases) : string :=
  "[" +:+ String.concat ","
            (map (fun r => "{" +:+ dq +:+ "name" +:+ dq +:+ ":" +:+ dq +:+ GH.Name r +:+ dq
                           +:+ "," +:+ dq +:+ "tarball_url" +:+ dq +:+ ":" +:+ dq
                           +:+ GH.Tarball_url r +:+ dq +:+ "}") gr)
      +:+ "]".

Definition widget_tags : GHModuleReleases :=
  [ {| GH.Name := "1.0.0";
       GH.Tarball_url := "https://api.github.com/repos/acme/puppet-my-widget/tarball/1.0.0" |};
    {| GH.Name := "0.9.0";
       GH.Tarball_url := "https://api.github.com/repos/acme/puppet-my-widget/tarball/0.9.0" |} ].

(** A decoder for the sample listings: it reads back the texts of
    [widget_tags] and of the empty listing and refuses every other text. *)
Definition sample_Unmarshal (body : string) : GHModuleReleases + string :=
  match find (fun gr => String.eqb (tags_json gr) body) [widget_tags; []] with
  | Some gr => inl gr
  | None => inr "invalid character looking for beginning of value"
  end.

(** An extraction for the samples: a file unpacks into an empty target
    folder, a directory is not an archive. *)
Definition sample_extract (r : node) (target : string) (f : gmap string node)
  : error * gmap string node :=
  match r with
  | File _ => (None, <[target := Dir]> f)
  | Dir => (Some "gzip: invalid header", f)
  end.

(** A stand-in for the fingerprint in the samples, where the name of the
    cache slot does not matter. *)
Definition sample_fingerprint (n : string) : string := "sha1-of-" +:+ n.

Definition ok_response (body : string) : GetResult :=
  GetOk {| StatusCode := 200; Status := "200 OK"; Body := Some body |}.

(** A host that answers the tags request of [acme/puppet-my-widget] with
    [listing] and every other request with an archive. *)
Definition widget_host (listing : string) (n : nat) (url : string) : GetResult :=
  if String.eqb url "https://api.github.com/repos/acme/puppet-my-widget/tags"
  then ok_response listing
  else ok_response "archive-bytes".

Definition world_of (files : gmap string node) (host : nat -> string -> GetResult)
  : World :=
  {| fs := files; locked := ∅; net := host; requests := []; stdout := [] |}.

(** The declaration of [my_widget] with no version, and with a version that
    was never tagged. *)
Definition latest_widget : GithubTarballModule := Github.set_version "" my_widget.
Definition untagged_widget : GithubTarballModule := Github.set_version "9.9.9" my_widget.

(** A cache that already holds the archive of version 1.0.0. *)
Definition warm_cache : gmap string node :=
  {[ ".cache/widget" := Dir; ".cache/widget/1.0.0.tar.gz" := File "archive-bytes" ]}.

(** The interface of the samples. *)
Definition sample_ops : PuppetModule GithubTarballModule :=
  GithubTarballModule_PuppetModule sample_Unmarshal sample_extract sample_fingerprint.

(** ** Reading a worker's trace *)

(** A terminal failure result: an error, and no retry announced. *)
Definition terminal_failure {M} (r : DownloadResult M) : bool :=
  is_error (err r) && negb (willRetry r).

(** A declaration failed terminally when the last download the worker made
    for it returned an error. *)
Definition failed_terminally {M} (trace : list (WorkerEvent M)) : bool :=
  match last (downloads trace) with
  | Some d => is_error d
  | None => false
  end.

(** The number of downloads made before position [k] of the trace. *)
Definition attempts_before {M} (k : nat) (trace : list (WorkerEvent M)) : nat :=
  length (downloads (take k trace)).

(** The three kinds of result a worker sends. *)
Definition skipped_result {M} (m0 : M) : DownloadResult M :=
  {| err := no_error; skipped := true; willRetry := false; m := m0 |}.

Definition retry_result {M} (derr : DownloadError) (m0 : M) : DownloadResult M :=
  {| err := derr; skipped := false; willRetry := true; m := m0 |}.

Definition final_result {M} (derr : DownloadError) (m0 : M) : DownloadResult M :=
  if is_error derr
  then {| err := derr; skipped := false; willRetry := false; m := m0 |}
  else {| err := no_error; skipped := false; willRetry := false; m := m0 |}.

(** The events of a run of retries: after the download that returned [derr]
    and left the module as [m0], one will-retry result, one sleep and one more
    download for each element of [more]. *)
Fixpoint retries_trace {M} (derr : DownloadError) (m0 : M)
    (more : list (DownloadError * M)) : list (WorkerEvent M) :=
  match more with
  | [] => []
  | (d, m1) :: rest =>
      [EvSend (retry_result derr m0); EvSleep (5 * Second); EvDownload d]
      ++ retries_trace d m1 rest
  end.

Section Retried.

Context {M : Type} {ops : PuppetModule M}.

(** [retried derr m0 more derr' m']: starting from a download that returned
    [derr] and left the module as [m0], each download of [more] was made
    because the one before it failed with a retryable error; the last one
    returned [derr'] and left the module as [m']. *)
Inductive retried : DownloadError -> M -> list (DownloadError * M)
                    -> DownloadError -> M -> Prop :=
  | retried_done derr m0 : retried derr m0 [] derr m0
  | retried_again derr m0 w d m1 w1 rest derr' m' :
    is_error derr && retryable derr = true ->
    Download m0 w = Ret (d, m1, w1) ->
    retried d m1 rest derr' m' ->
    retried derr m0 ((d, m1) :: rest) derr' m'.

(** [after_downloads m0 m']: the declaration [m0] has become [m'] through
    some number of downloads. *)
Inductive after_downloads : M -> M -> Prop :=
  | after_none m0 : after_downloads m0 m0
  | after_one m0 w d m1 w1 m' :
    Download m0 w = Ret (d, m1, w1) ->
    after_downloads m1 m' ->
    after_downloads m0 m'.

End Retried.

(** The module is installed at [t] in the version it declares: the folder
    exists, and its [.version] file holds the declared version when there is
    one. *)
Definition installed (m0 : GithubTarballModule) (t : string) (w : World) : Prop :=
  is_Some (fs w !! t) /\
  (version m0 = "" \/ fs w !! GoPath.Join [t; ".version"] = Some (File (version m0))).

(** An environment where [my_widget] is installed in version 1.0.0. *)
Definition widget_installed : gmap string node :=
  {[ "/srv/puppet/modules/widget" := Dir;
     "/srv/puppet/modules/widget/.version" := File "1.0.0" ]}.

(** ** Proof steps that recur *)

(** Case analysis along a Go function: on the outcome of the next call and
    on the next test. *)
Ltac run_cases H :=
  repeat (simpl in H;
          first
            [ discriminate H
            | match type of H with
              | context [mbind _ ?r] => destruct r eqn:?
              | context [match ?x with _ => _ end] => destruct x eqn:?
              end ]).

(** Case analysis on a position [k] of a trace that is written out. *)
Ltac trace_positions k H :=
  repeat (destruct k as [|k]; simpl in H; simplify_eq).

(** Closes a case where a download is at once retried and not retried. *)
Ltac clash_condition :=
  match goal with
  | Hc : is_error ?d && retryable ?d = _, He : is_error ?d = _ |- _ =>
      rewrite He in Hc; simpl in Hc;
      first [ discriminate Hc
            | match goal with
              | Hr : retryable d = _ |- _ => rewrite Hr in Hc; discriminate Hc
              end ]
  end.

(** ** The aggregator and the deduplicator, read from outside *)

(** Modelled from the spec: a metadata-file object, a module-file known by
    its file name ([NewMetadataFile] and its type are not among the sources
    at hand). *)
Record MetadataFile : Type := { Filename : string }.

(** Modelled from the spec: [NewMetadataFile(path)] gives the metadata-file
    object rooted at [path] when the file opens cleanly, and [nil]
    otherwise. *)
Definition NewMetadataFile_in (files : gmap string node) (p : string)
  : option MetadataFile :=
  match files !! p with
  | Some (File _) => Some {| Filename := p |}
  | _ => None
  end.

(** Transitive discovery for a module installed at [t]: the metadata file,
    when there is one, is counted as pending work and enqueued. *)
Definition discover {moduleFile} (NewMetadataFile : string -> option moduleFile)
    (t : string) (st : Aggregator moduleFile) : Aggregator moduleFile :=
  match NewMetadataFile (GoPath.Join [t; "metadata.json"]) with
  | Some mf => enqueue mf st
  | None => st
  end.

(** [my_widget] installed, with its metadata file. *)
Definition widget_with_metadata : gmap string node :=
  <["/srv/puppet/modules/widget/metadata.json" := File "{}"]> widget_installed.

(** The declaration as [deduplicate] hands it on: with the environment root
    and the cache folder bound. *)
Definition prepared {M} {ops : PuppetModule M} (cache_folder env : string) (m0 : M) : M :=
  SetCacheFolder (GoPath.Join [cache_folder; Hash (SetEnvRoot env m0)])
                 (SetEnvRoot env m0).

(** The elements of [l] at the positions that [keep] selects. *)
Definition select_at {A} (keep : nat -> bool) (l : list A) : list A :=
  omap id (imap (fun i x => if keep i then Some x else None) l).

(** Position [i] of [ts] holds a target folder that no earlier position
    holds. *)
Definition first_occurrence (ts : list string) (i : nat) : bool :=
  match ts !! i with
  | Some t => bool_decide (t ∉ take i ts)
  | None => false
  end.

(** Position [i] of [ts] holds a target folder that is neither in [seen]
    nor at an earlier position. *)
Definition fresh_at (seen ts : list string) (i : nat) : bool :=
  match ts !! i with
  | Some t => bool_decide (t ∉ seen ++ take i ts)
  | None => false
  end.

(** Two declarations of the same target folder and one of another. *)
Definition other_module : GithubTarballModule :=
  {| name := "acme/gadget"; repoName := "acme/puppet-gadget";
     version := ""; cacheFolder := ""; envRoot := ""; installPath := "";
     processed := 2%nat |}.

Definition widget_again : GithubTarballModule :=
  {| name := "other/puppet-widget"; repoName := "other/puppet-widget";
     version := "2.0.0"; cacheFolder := ""; envRoot := ""; installPath := "";
     processed := 1%nat |}.

Definition manifest : list GithubTarballModule :=
  [my_widget; widget_again; other_module].

(** ** Runs of the pipeline *)

(** What the pipeline expects of an implementation of the interface: the
    [processed] closure of a declaration stays the same whatever the methods
    change in the declaration. *)
Class PuppetModuleLaws {M : Type} (ops : PuppetModule M) : Prop := {
  SetEnvRoot_Processed : forall s m0, Processed (SetEnvRoot s m0) = Processed m0;
  SetCacheFolder_Processed : forall s m0, Processed (SetCacheFolder s m0) = Processed m0;
  Download_Processed : forall m0 w derr m' w',
    Download m0 w = Ret (derr, m', w') -> Processed m' = Processed m0
}.

(** The number of times the closure [cb] was called. *)
Definition calls_of (cb : Callback) (calls : list Callback) : nat :=
  length (filter (fun c => c = cb) calls).

(** The workers handled the forwarded declarations, each in some state of
    the environment, and [traces] is what they did, declaration by
    declaration. *)
Definition pool_run {M} {ops : PuppetModule M} (out : list M)
    (traces : list (list (WorkerEvent M))) : Prop :=
  Forall2 (fun m0 trace => exists w m' w', downloadModule m0 w = Ret (trace, m', w'))
          out traces.

(** The results that reach the aggregator, in some order of arrival. *)
Definition arrival {M} (traces : list (list (WorkerEvent M)))
    (results : list (DownloadResult M)) : Prop :=
  results ≡ₚ concat (sent <$> traces).

(** The results on which [parseResult] calls [Processed], and those on
    which it counts an error. *)
Definition releases {M} (r : DownloadResult M) : bool :=
  negb (is_error (err r) && (retryable (err r) && willRetry r)).

Definition counted {M} (r : DownloadResult M) : bool :=
  is_error (err r) && negb (retryable (err r) && willRetry r).

(** A run of the samples: the manifest is deduplicated, each forwarded
    declaration is downloaded from a host that knows the tags of the widget
    only, and the results arrive last first. *)
Definition sample_world : World := world_of ∅ (widget_host (tags_json widget_tags)).

Definition sample_out : list GithubTarballModule :=
  [prepared (ops := sample_ops) ".cache" "/srv/puppet" my_widget;
   prepared (ops := sample_ops) ".cache" "/srv/puppet" other_module].

Definition sample_dropped : list GithubTarballModule :=
  [prepared (ops := sample_ops) ".cache" "/srv/puppet" widget_again].

Definition trace_of (m0 : GithubTarballModule) : list (WorkerEvent GithubTarballModule) :=
  match downloadModule (ops := sample_ops) m0 sample_world with
  | Ret (trace, _, _) => trace
  | _ => []
  end.

Definition sample_traces : list (list (WorkerEvent GithubTarballModule)) :=
  trace_of <$> sample_out.

Definition sample_results : list (DownloadResult GithubTarballModule) :=
  rev (concat (sent <$> sample_traces)).

Definition sample_end : Aggregator MetadataFile :=
  match parseResults (ops := sample_ops) (NewMetadataFile_in ∅) sample_results true 3 with
  | Ret st => st
  | _ => Aggregator_start 3
  end.

(** ** More samples *)

(** A declaration whose name holds separators only. *)
Definition only_separators : GithubTarballModule :=
  {| name := "-/-"; repoName := "acme/puppet-dash"; version := "";
     cacheFolder := ""; envRoot := "/srv/puppet"; installPath := "";
     processed := 3%nat |}.

(** What the host answers to the tags request that [downloadURL] is about
    to make in [w]: the decoded listing, when the request gets a response
    with status 200 and a body that can be read and decoded. *)
Definition tags_listing (json_Unmarshal : string -> GHModuleReleases + string)
    (m0 : GithubTarballModule) (w : World) : option GHModuleReleases :=
  match net w (length (requests w)) (Github.tags_url m0) with
  | GetFails _ => None
  | GetOk resp =>
      if StatusCode resp =? 200 then
        match Body resp with
        | Some body =>
            match json_Unmarshal body with
            | inl gr => Some gr
            | inr _ => None
            end
        | None => None
        end
      else None
  end.

(** The world once one more request, for [url], has been recorded. *)
Definition requested (url : string) (w : World) : World := (http_Get url w).2.

(** The results for which [parseResult] writes a log line: every result but
    the skipped ones. *)
Definition logs {M} (r : DownloadResult M) : bool :=
  is_error (err r) || negb (skipped r).

(** The metadata file that [parseResult] enqueues for a result, if any. *)
Definition discovered {M} {ops : PuppetModule M} {moduleFile}
    (NewMetadataFile : string -> option moduleFile) (deps : bool)
    (r : DownloadResult M) : option moduleFile :=
  if is_error (err r) then None
  else if deps then
    match TargetFolder (m r) with
    | Ret t => NewMetadataFile (GoPath.Join [t; "metadata.json"])
    | _ => None
    end
  else None.

(** * Properties *)

(** ** Sanity checks of the path and string functions *)

Example Clean_dot : GoPath.Join ["."; "modules"; "stdlib"] = "modules/stdlib".
Proof. reflexivity. Qed.
Example Clean_up : GoPath.Join ["/env"; "modules"; ".."] = "/env".
Proof. reflexivity. Qed.
Example Clean_upup : GoPath.Clean "a/../../b//c/." = "../b/c".
Proof. reflexivity. Qed.
Example Clean_root : GoPath.Clean "/../a/" = "/a".
Proof. reflexivity. Qed.
Example Fields_ex :
  GoStrings.FieldsFunc "puppetlabs/my-mod-" (fun r => Ascii.eqb r "/" || Ascii.eqb r "-")
  = ["puppetlabs"; "my"; "mod"].
Proof. reflexivity. Qed.


(** ** Slashes, segments and fields *)

Section PathLemmas.

Import GoStrings GoPath.

Lemma split_slash_nonempty s : split_slash s <> [].
Proof.
  destruct s as [|c s]; simpl; [discriminate|].
  destruct (Ascii.eqb c "/"); [discriminate|].
  destruct (split_slash s); discriminate.
Qed.

Lemma concat_cons2 sep x y ys :
  String.concat sep (x :: y :: ys) = x +:+ sep +:+ String.concat sep (y :: ys).
Proof. reflexivity. Qed.

Lemma concat_split_slash s : String.concat "/" (split_slash s) = s.
Proof.
  induction s as [|c s IH]; [reflexivity|].
  simpl. destruct (Ascii.eqb_spec c "/") as [->|Hc].
  - pose proof (split_slash_nonempty s) as Hne.
    destruct (split_slash s) as [|x xs]; [done|].
    rewrite concat_cons2. by rewrite IH.
  - destruct (split_slash s) as [|x xs] eqn:E.
    + by destruct (split_slash_nonempty s).
    + destruct xs as [|y ys]; simpl in *; by rewrite <- IH.
Qed.

Lemma split_slash_app a b :
  split_slash (a +:+ "/" +:+ b) = split_slash a ++ split_slash b.
Proof.
  induction a as [|c a IH]; [reflexivity|].
  simpl. destruct (Ascii.eqb c "/").
  - by rewrite IH.
  - rewrite IH. pose proof (split_slash_nonempty a).
    by destruct (split_slash a).
Qed.

Lemma split_slash_no_slash s :
  all_chars (fun c => negb (Ascii.eqb c "/")) s = true -> split_slash s = [s].
Proof.
  induction s as [|c s IH]; [done|].
  simpl. intros [Hc Hs]%andb_prop.
  destruct (Ascii.eqb c "/"); [done|]. by rewrite (IH Hs).
Qed.

Lemma fold_clean_plain rooted segs acc :
  forallb plain_segment segs = true ->
  fold_left (clean_step rooted) segs acc = rev segs ++ acc.
Proof.
  revert acc. induction segs as [|s segs IH]; intros acc Hp; [done|].
  simpl in Hp. apply andb_prop in Hp as [Hs Hp].
  simpl. rewrite <- app_assoc. simpl. rewrite <- (IH _ Hp). f_equal.
  unfold plain_segment in Hs. unfold clean_step.
  destruct (String.eqb s ""); [done|].
  destruct (String.eqb s "."); [done|].
  by destruct (String.eqb s "..").
Qed.

Lemma is_plain_not_rooted p : is_plain p = true -> is_rooted p = false.
Proof.
  destruct p as [|c p]; [done|].
  unfold is_plain. simpl. by destruct (Ascii.eqb c "/").
Qed.

Lemma Clean_plain p : is_plain p = true -> Clean p = p.
Proof.
  intros Hp. unfold Clean. rewrite (is_plain_not_rooted _ Hp).
  rewrite (fold_clean_plain _ _ _ Hp), app_nil_r, rev_involutive.
  pose proof (split_slash_nonempty p). pose proof (concat_split_slash p).
  by destruct (split_slash p).
Qed.

Lemma Clean_rooted_plain p : is_plain p = true -> Clean ("/" +:+ p) = "/" +:+ p.
Proof.
  intros Hp. unfold Clean. cbn [is_rooted String.append]. simpl.
  unfold clean_step at 2. simpl.
  rewrite (fold_clean_plain _ _ _ Hp), app_nil_r, rev_involutive.
  by rewrite concat_split_slash.
Qed.

Lemma is_plain_app a b :
  is_plain (a +:+ "/" +:+ b) = is_plain a && is_plain b.
Proof. unfold is_plain. by rewrite split_slash_app, forallb_app. Qed.

Lemma Clean_clean_path p : clean_path p = true -> Clean p = p.
Proof.
  destruct p as [|c r]; [done|]. simpl.
  destruct (Ascii.eqb_spec c "/") as [->|Hc]; intros Hp.
  - by apply (Clean_rooted_plain r).
  - by apply Clean_plain.
Qed.

Lemma clean_path_app a b :
  clean_path a = true -> is_plain b = true ->
  clean_path (a +:+ "/" +:+ b) = true.
Proof.
  destruct a as [|c r]; [done|]. simpl.
  destruct (Ascii.eqb c "/"); intros Ha Hb.
  - rewrite is_plain_app. by rewrite Ha, Hb.
  - change (String c (r +:+ "/" +:+ b)) with (String c r +:+ "/" +:+ b).
    rewrite is_plain_app. by rewrite Ha, Hb.
Qed.

Lemma all_chars_snoc P w c :
  all_chars P (w +:+ String c "") = all_chars P w && P c.
Proof.
  induction w as [|d w IH]; simpl.
  - by rewrite andb_true_r.
  - by rewrite IH, andb_assoc.
Qed.

Lemma append_snoc_nonempty w c : w +:+ String c "" <> "".
Proof. by destruct w. Qed.

(** Every field is non-empty and holds no separator. *)
Lemma fields_go_fields f cur s :
  (forall w, cur = Some w -> w <> "" /\ all_chars (fun c => negb (f c)) w = true) ->
  Forall (fun w => w <> "" /\ all_chars (fun c => negb (f c)) w = true)
         (fields_go f cur s).
Proof.
  revert cur. induction s as [|c s IH]; intros cur Hcur; simpl.
  - destruct cur; [|constructor]. constructor; [by apply Hcur | constructor].
  - destruct (f c) eqn:Hf.
    + destruct cur.
      * constructor; [by apply Hcur|]. by apply IH.
      * by apply IH.
    + destruct cur as [w|]; apply IH; intros w' [= <-].
      * destruct (Hcur w eq_refl) as [_ Hw].
        split; [apply append_snoc_nonempty|].
        by rewrite all_chars_snoc, Hw, Hf.
      * split; [done|]. simpl. by rewrite Hf.
Qed.

Lemma FieldsFunc_fields s f :
  Forall (fun w => w <> "" /\ all_chars (fun c => negb (f c)) w = true)
         (FieldsFunc s f).
Proof. apply fields_go_fields. discriminate. Qed.

Lemma all_chars_impl (P Q : ascii -> bool) s :
  (forall c, P c = true -> Q c = true) ->
  all_chars P s = true -> all_chars Q s = true.
Proof.
  intros HPQ. induction s as [|c s IH]; [done|]. simpl.
  intros [Hc Hs]%andb_prop. by rewrite (HPQ _ Hc), (IH Hs).
Qed.

End PathLemmas.

(** ** The target folder *)

Lemma plain_field leaf :
  leaf <> "" -> leaf <> "." -> leaf <> ".." ->
  all_chars (fun c => negb (Github.is_separator c)) leaf = true ->
  is_plain leaf = true.
Proof.
  intros H0 H1 H2 Hsep. unfold is_plain.
  rewrite split_slash_no_slash.
  - simpl. unfold plain_segment.
    apply String.eqb_neq in H0, H1, H2. by rewrite H0, H1, H2.
  - revert Hsep. apply all_chars_impl. intros c. unfold Github.is_separator.
    by destruct (Ascii.eqb c "/").
Qed.

(** C9, as the code has it: the target folder is the cleaned form of
    [<env-root>/<install-subpath or "modules">/<leaf>], where [leaf] is the
    last field of the module name once it is split at every [/] and every
    [-]; when the environment root and the sub-path are plain paths and the
    leaf is neither [.] nor [..], this is the path written out as it is. *)
Theorem TargetFolder_layout (m : GithubTarballModule) (leaf : string) :
  envRoot m <> "" ->
  last (GoStrings.FieldsFunc (name m) Github.is_separator) = Some leaf ->
  Github.TargetFolder m
    = Ret (GoPath.Clean (envRoot m +:+ "/" +:+ install_subpath m +:+ "/" +:+ leaf))
  /\ (clean_path (envRoot m) = true -> is_plain (install_subpath m) = true ->
      leaf <> "." -> leaf <> ".." ->
      Github.TargetFolder m
        = Ret (envRoot m +:+ "/" +:+ install_subpath m +:+ "/" +:+ leaf)).
Proof.
  intros Henv Hlast.
  pose proof (FieldsFunc_fields (name m) Github.is_separator) as Hfields.
  apply last_Some in Hlast as Hsplit. destruct Hsplit as [fields' Hsplit].
  rewrite Hsplit in Hfields. apply Forall_app in Hfields as [_ Hleaf].
  apply Forall_singleton in Hleaf as [Hne Hsep].
  assert (Github.TargetFolder m
    = Ret (GoPath.Clean (envRoot m +:+ "/" +:+ install_subpath m +:+ "/" +:+ leaf)))
    as Heq.
  { unfold Github.TargetFolder, install_subpath.
    apply String.eqb_neq in Henv as Henv'. rewrite Henv'.
    rewrite Hlast. apply String.eqb_neq in Hne as Hne'. rewrite Hne'.
    unfold GoPath.Join.
    destruct (String.eqb (installPath m) ""); simpl; by rewrite Henv'. }
  split; [exact Heq|].
  intros Hroot Hsub Hdot Hdotdot. rewrite Heq. f_equal.
  apply Clean_clean_path.
  change (envRoot m +:+ "/" +:+ install_subpath m +:+ "/" +:+ leaf)
    with (envRoot m +:+ "/" +:+ (install_subpath m +:+ "/" +:+ leaf)).
  apply clean_path_app; [done|].
  rewrite is_plain_app, Hsub. simpl. by apply plain_field.
Qed.

Lemma TargetFolder_layout_witness :
  envRoot my_widget <> "" /\
  last (GoStrings.FieldsFunc (name my_widget) Github.is_separator) = Some "widget" /\
  clean_path (envRoot my_widget) = true /\
  is_plain (install_subpath my_widget) = true /\
  "widget" <> "." /\ "widget" <> ".." /\
  Github.TargetFolder my_widget = Ret "/srv/puppet/modules/widget".
Proof.
  assert (envRoot my_widget <> "") as H1 by discriminate.
  assert (last (GoStrings.FieldsFunc (name my_widget) Github.is_separator)
          = Some "widget") as H2 by reflexivity.
  assert (clean_path (envRoot my_widget) = true) as H3 by reflexivity.
  assert (is_plain (install_subpath my_widget) = true) as H4 by reflexivity.
  assert ("widget" <> ".") as H5 by discriminate.
  assert ("widget" <> "..") as H6 by discriminate.
  refine (conj H1 (conj H2 (conj H3 (conj H4 (conj H5 (conj H6 _)))))).
  exact (proj2 (TargetFolder_layout my_widget "widget" H1 H2) H3 H4 H5 H6).
Defined.

(** C9 as the specification words it fails: the name [acme/my-widget] has
    the last path segment [my-widget], and the module is installed in
    [widget]. *)
Lemma TargetFolder_splits_at_dash :
  Spec.target_folder my_widget = "/srv/puppet/modules/my-widget" /\
  Github.TargetFolder my_widget = Ret "/srv/puppet/modules/widget" /\
  Github.TargetFolder my_widget <> Ret (Spec.target_folder my_widget).
Proof. split; [reflexivity|]. split; [reflexivity|]. discriminate. Qed.

(** ** The GitHub tarball module: the tags listing and the cache *)

Section GithubDownload.

Variable json_Unmarshal : string -> GHModuleReleases + string.
Variable extract : node -> string -> gmap string node -> error * gmap string node.

Lemma os_Stat_same_fs p w1 w2 : fs w1 = fs w2 -> os_Stat p w1 = os_Stat p w2.
Proof. unfold os_Stat. by intros ->. Qed.

Lemma os_OpenFile_create_requests p w e w' :
  os_OpenFile_create p w = (e, w') -> requests w' = requests w.
Proof. unfold os_OpenFile_create. intros; repeat case_match; by simplify_eq. Qed.

Lemma WriteString_requests p s w : requests (WriteString p s w) = requests w.
Proof. unfold WriteString. by repeat case_match. Qed.

(** [downloadURL] makes one request, for the tags listing, and leaves
    the filesystem alone; it changes the module only to bind the version
    of a declaration that has none. *)
Lemma downloadURL_effects m w res m' w' :
  Github.downloadURL json_Unmarshal m w = Ret (res, m', w') ->
  requests w' = requests w ++ [Github.tags_url m] /\ fs w' = fs w /\
  (m' = m \/ exists v, version m = "" /\ m' = Github.set_version v m).
Proof.
  unfold Github.downloadURL, http_Get. intros Hret.
  repeat case_match; simplify_eq; simpl; try (by auto).
  split; [done|]. split; [done|]. right. eexists. split; [|done].
  match goal with
  | Hv : negb (String.eqb (version m) "") = false |- _ =>
      apply negb_false_iff, String.eqb_eq in Hv; exact Hv
  end.
Qed.

(** Whatever [downloadURL] reports as an error, and however it classified
    it, [Download] hands on as retryable. *)
Lemma Download_url_error_retryable m w e m' w' :
  Github.downloadURL json_Unmarshal m w = Ret (inr e, m', w') ->
  Github.Download json_Unmarshal extract m w
  = Ret ({| err_error := Some (URLError_message e); retryable := true |}, m', w').
Proof. unfold Github.Download. by intros ->. Qed.

(** C1, as the code has it: when the cache already holds the archive of
    the version that the tags listing resolves, [Download] requests the
    tags listing and nothing else: the archive itself is not fetched. *)
Theorem Download_cached_fetches_tags_only m w derr m' w' :
  Github.Download json_Unmarshal extract m w = Ret (derr, m', w') ->
  os_Stat (Github.cache_blob m') w = None ->
  requests w' = requests w ++ [Github.tags_url m].
Proof.
  unfold Github.Download. intros Hret Hblob.
  destruct (Github.downloadURL json_Unmarshal m w) as [[[res m1] w1]| |] eqn:Hurl;
    simpl in Hret; try discriminate.
  apply downloadURL_effects in Hurl as (Hreq & Hfs & _).
  destruct res as [url|e]; [|by simplify_eq].
  destruct (os_Stat (Github.cache_blob m1) w1) as [missing|] eqn:Hstat.
  - assert (m' = m1) as ->.
    { unfold http_Get in Hret. run_cases Hret; by simplify_eq. }
    rewrite (os_Stat_same_fs _ _ _ Hfs) in Hstat. congruence.
  - rewrite <- Hreq. clear Hreq Hstat Hblob Hfs.
    destruct (os_Open (Github.cache_blob m1) w1); [|by simplify_eq].
    destruct (Github.TargetFolder m1); simpl in Hret; try discriminate.
    destruct (extract _ _ _) as [[e|] fs']; [by simplify_eq|].
    destruct (os_OpenFile_create _ _) as [[e|] w2] eqn:Hopen;
      apply os_OpenFile_create_requests in Hopen; simplify_eq; simpl.
    + done.
    + by rewrite WriteString_requests.
Qed.

End GithubDownload.

Lemma Download_cached_fetches_tags_only_witness :
  let w := world_of warm_cache (widget_host (tags_json widget_tags)) in
  exists derr m' w',
    Github.Download sample_Unmarshal sample_extract my_widget w = Ret (derr, m', w') /\
    os_Stat (Github.cache_blob m') w = None /\
    requests w' = requests w ++ [Github.tags_url my_widget].
Proof.
  intros w.
  destruct (Github.Download sample_Unmarshal sample_extract my_widget w)
    as [[[derr m'] w']| |] eqn:Hret; [|by vm_compute in Hret..].
  assert (m' = my_widget) as Hm.
  { pose proof Hret as Hval. vm_compute in Hval.
    injection Hval as _ Hm' _. by rewrite <- Hm'. }
  exists derr, m', w'. split; [reflexivity|].
  assert (os_Stat (Github.cache_blob m') w = None) as Hblob by (by rewrite Hm).
  split; [exact Hblob|].
  exact (Download_cached_fetches_tags_only sample_Unmarshal sample_extract
           my_widget w derr m' w' Hret Hblob).
Defined.

(** C1 as the specification words it fails: the archive of version 1.0.0
    is in the cache, and [Download] still asks the host for the tags
    listing. *)
Lemma Download_cached_still_requests_tags :
  let w := world_of warm_cache (widget_host (tags_json widget_tags)) in
  os_Stat (Github.cache_blob my_widget) w = None /\
  requests w = [] /\
  exists derr m' w',
    Github.Download sample_Unmarshal sample_extract my_widget w = Ret (derr, m', w') /\
    requests w' = ["https://api.github.com/repos/acme/puppet-my-widget/tags"].
Proof.
  split; [reflexivity|]. split; [reflexivity|].
  do 3 eexists. split; [vm_compute; reflexivity|reflexivity].
Qed.

(** With no version declared and a listing that decodes to no release,
    [downloadURL] reads [gr[0]] all the same. *)
Lemma downloadURL_no_release json_Unmarshal m w resp body :
  version m = "" ->
  net w (length (requests w)) (Github.tags_url m) = GetOk resp ->
  StatusCode resp = 200 -> Body resp = Some body -> json_Unmarshal body = inl [] ->
  Github.downloadURL json_Unmarshal m w = Panic "index out of range [0] with length 0".
Proof.
  intros Hv Hnet Hcode Hbody Hjson. unfold Github.downloadURL, http_Get.
  by rewrite Hnet, Hcode, Hbody, Hjson, Hv.
Qed.

(** C10 fails on the code: a declaration without a version, and a host that
    answers the tags request with the empty JSON array.  [downloadURL] reads
    index 0 of the empty listing and panics, and so do [Download] and the
    worker that called it. *)
Lemma downloadURL_empty_listing_panics :
  let w := world_of ∅ (widget_host "[]") in
  sample_Unmarshal "[]" = inl [] /\
  Github.downloadURL sample_Unmarshal latest_widget w
    = Panic "index out of range [0] with length 0" /\
  Github.Download sample_Unmarshal sample_extract latest_widget w
    = Panic "index out of range [0] with length 0" /\
  downloadModule (ops := sample_ops) latest_widget w
    = Panic "index out of range [0] with length 0".
Proof. repeat split; vm_compute; reflexivity. Qed.

(** C2 fails on the code: version 9.9.9 is not in the tags listing.
    [downloadURL] classifies the error as not retryable, [Download] hands it
    on as retryable, and the worker downloads three times, sending two
    will-retry results before the terminal failure. *)
Lemma version_not_found_is_retried :
  let w := world_of ∅ (widget_host (tags_json widget_tags)) in
  Github.find_version (version untagged_widget) 0 widget_tags = None /\
  (exists d m' w',
      Github.downloadURL sample_Unmarshal untagged_widget w
      = Ret (inr (Classified d), m', w') /\ retryable d = false) /\
  (exists derr m' w',
      Github.Download sample_Unmarshal sample_extract untagged_widget w
      = Ret (derr, m', w') /\ is_error derr = true /\ retryable derr = true) /\
  (exists trace m' w',
      downloadModule (ops := sample_ops) untagged_widget w = Ret (trace, m', w') /\
      length (downloads trace) = 3%nat /\
      map willRetry (sent trace) = [true; true; false]).
Proof.
  split; [reflexivity|]. split; [|split].
  - do 3 eexists. split; [vm_compute; reflexivity|reflexivity].
  - do 3 eexists. split; [vm_compute; reflexivity|]. by split.
  - do 3 eexists. split; [vm_compute; reflexivity|]. by split.
Qed.

(** ** The worker *)

Section Worker.

Context {M : Type} {ops : PuppetModule M}.

(** The retry loop adds at most [left] downloads. *)
Lemma retry_loop_downloads left : forall derr (m0 : M) w trace derr' m' w' trace',
  retry_loop left derr m0 w trace = Ret (derr', m', w', trace') ->
  (length (downloads trace') <= length (downloads trace) + left)%nat.
Proof.
  induction left as [|left IH]; intros derr m0 w trace derr' m' w' trace' Hret.
  - simpl in Hret. simplify_eq. lia.
  - simpl in Hret. destruct (is_error derr && retryable derr).
    + destruct (Download m0 w) as [[[d1 m1] w1]| |]; simpl in Hret; try discriminate.
      apply IH in Hret. revert Hret. unfold downloads.
      rewrite !omap_app. simpl. rewrite !length_app. simpl. lia.
    + simplify_eq. lia.
Qed.

Lemma retry_loop_shape left : forall derr (m0 : M) w trace derr' m' w' trace',
  retry_loop left derr m0 w trace = Ret (derr', m', w', trace') ->
  exists more,
    trace' = trace ++ retries_trace derr m0 more /\
    (length more <= left)%nat /\
    retried derr m0 more derr' m' /\
    ((length more < left)%nat -> is_error derr' && retryable derr' = false).
Proof.
  induction left as [|left IH]; intros derr m0 w trace derr' m' w' trace' Hret.
  - simpl in Hret. simplify_eq. exists []. rewrite app_nil_r.
    repeat split; [done | constructor | simpl; lia].
  - simpl in Hret. destruct (is_error derr && retryable derr) eqn:Hcond.
    + destruct (Download m0 w) as [[[d1 m1] w1]| |] eqn:Hdl; simpl in Hret;
        try discriminate.
      apply IH in Hret as (more & -> & Hlen & Hchain & Hstop).
      exists ((d1, m1) :: more). repeat split.
      * simpl. rewrite <- !app_assoc. reflexivity.
      * simpl. lia.
      * econstructor; eauto.
      * simpl. intros. apply Hstop. lia.
    + simplify_eq. exists []. rewrite app_nil_r.
      repeat split; [simpl; lia | constructor | done].
Qed.

(** What a worker does for one declaration: either the declaration is up
    to date and one skipped result is sent, or the target folder is removed
    and at most three downloads are made, with a will-retry result and a
    sleep between two of them and one final result at the end. *)
Lemma downloadModule_shape (m0 : M) w trace m' w' :
  downloadModule m0 w = Ret (trace, m', w') ->
  (IsUpToDate m0 w = Ret (true, w') /\ m' = m0 /\
   trace = [EvSend (skipped_result m0)])
  \/
  (exists w0 t d1 m1 w1 more derr,
      IsUpToDate m0 w = Ret (false, w0) /\
      TargetFolder m0 = Ret t /\
      Download m0 (os_RemoveAll t w0).2 = Ret (d1, m1, w1) /\
      retried d1 m1 more derr m' /\
      (length more <= 2)%nat /\
      ((length more < 2)%nat -> is_error derr && retryable derr = false) /\
      trace = [EvRemoveAll t; EvDownload d1] ++ retries_trace d1 m1 more
              ++ [EvSend (final_result derr m')]).
Proof.
  unfold downloadModule. intros Hret.
  destruct (IsUpToDate m0 w) as [[[|] w0]| |] eqn:Hup; cbn [mbind Run_bind] in Hret;
    try discriminate.
  - left. by simplify_eq.
  - right. destruct (TargetFolder m0) as [t| |] eqn:Ht; cbn [mbind Run_bind] in Hret;
      try discriminate.
    destruct (os_RemoveAll t w0) as [[e|] w0'] eqn:Hrm; cbn [mbind Run_bind] in Hret;
      try discriminate.
    destruct (Download m0 w0') as [[[d1 m1] w1]| |] eqn:Hdl;
      cbn [mbind Run_bind] in Hret; try discriminate.
    change (Z.to_nat (maxTries - 1)) with 2%nat in Hret.
    destruct (retry_loop 2 d1 m1 w1 _) as [[[[derr m2] w2] tr]| |] eqn:Hloop;
      cbn [mbind Run_bind] in Hret; try discriminate.
    apply retry_loop_shape in Hloop as (more & -> & Hlen & Hchain & Hstop).
    exists w0, t, d1, m1, w1, more, derr.
    assert (m' = m2) as -> by (destruct (is_error derr); by simplify_eq).
    rewrite Hrm. simpl. repeat split; try done.
    unfold final_result.
    destruct (is_error derr); by simplify_eq.
Qed.

(** The traces that [downloadModule_shape] allows, written out. *)
Lemma downloadModule_traces (m0 : M) w trace m' w' :
  downloadModule m0 w = Ret (trace, m', w') ->
  trace = [EvSend (skipped_result m0)]
  \/ (exists t d1,
        is_error d1 && retryable d1 = false /\
        trace = [EvRemoveAll t; EvDownload d1; EvSend (final_result d1 m')])
  \/ (exists t d1 m1 d2,
        is_error d1 && retryable d1 = true /\
        is_error d2 && retryable d2 = false /\
        trace = [EvRemoveAll t; EvDownload d1;
                 EvSend (retry_result d1 m1); EvSleep (5 * Second); EvDownload d2;
                 EvSend (final_result d2 m')])
  \/ (exists t d1 m1 d2 m2 d3,
        is_error d1 && retryable d1 = true /\
        is_error d2 && retryable d2 = true /\
        trace = [EvRemoveAll t; EvDownload d1;
                 EvSend (retry_result d1 m1); EvSleep (5 * Second); EvDownload d2;
                 EvSend (retry_result d2 m2); EvSleep (5 * Second); EvDownload d3;
                 EvSend (final_result d3 m')]).
Proof.
  intros Hret. apply downloadModule_shape in Hret
    as [(_ & _ & ->)|(w0 & t & d1 & m1 & w1 & more & derr & _ & _ & _ &
                       Hchain & Hlen & Hstop & ->)]; [by left|right].
  destruct more as [|[d2 m2] more].
  { inversion Hchain; subst. left. exists t, derr. split; [|done].
    apply Hstop. simpl. lia. }
  right. inversion Hchain as [|? ? ? ? ? ? ? ? ? Hc1 _ Hchain2]; subst.
  destruct more as [|[d3 m3] more].
  { inversion Hchain2; subst. left. exists t, d1, m1, derr.
    split; [done|]. split; [|done]. apply Hstop. simpl. lia. }
  right. inversion Hchain2 as [|? ? ? ? ? ? ? ? ? Hc2 _ Hchain3]; subst.
  destruct more as [|? more]; [|simpl in Hlen; lia].
  inversion Hchain3; subst. by exists t, d1, m1, d2, m2, derr.
Qed.

Lemma final_result_error (d : DownloadError) (m0 : M) :
  is_error d = true ->
  final_result d m0 = {| err := d; skipped := false; willRetry := false; m := m0 |}.
Proof. unfold final_result. by intros ->. Qed.

Lemma final_result_terminal (d : DownloadError) (m0 : M) :
  terminal_failure (final_result d m0) = is_error d.
Proof. unfold final_result, terminal_failure. by destruct (is_error d) eqn:E; simpl; [rewrite E|]. Qed.

Lemma retry_result_not_terminal (d : DownloadError) (m0 : M) :
  terminal_failure (retry_result d m0) = false.
Proof. unfold terminal_failure. simpl. apply andb_false_r. Qed.

Lemma filter_terminal_cons (r : DownloadResult M) rs :
  filter (fun r => terminal_failure r = true) (r :: rs)
  = if terminal_failure r
    then r :: filter (fun r => terminal_failure r = true) rs
    else filter (fun r => terminal_failure r = true) rs.
Proof. rewrite filter_cons. destruct (terminal_failure r); by case_decide. Qed.

(** C5: a worker downloads a declaration at most three times; a failed
    retryable attempt that is not the third is followed by a will-retry
    result, a sleep of five seconds and the next attempt; an attempt that
    fails with an error that is not retryable, or the third attempt when it
    fails, is followed by one terminal failure result, the only one of the
    run, which ends there. *)
Theorem worker_retry_policy (m0 : M) w trace m' w' :
  downloadModule m0 w = Ret (trace, m', w') ->
  (length (downloads trace) <= 3)%nat
  /\ (forall k d,
        trace !! k = Some (EvDownload d) ->
        is_error d = true -> retryable d = true ->
        (attempts_before k trace < 2)%nat ->
        exists r d',
          trace !! (k + 1)%nat = Some (EvSend r) /\
          err r = d /\ willRetry r = true /\
          trace !! (k + 2)%nat = Some (EvSleep (5 * Second)) /\
          trace !! (k + 3)%nat = Some (EvDownload d'))
  /\ (forall k d,
        trace !! k = Some (EvDownload d) ->
        is_error d = true ->
        retryable d = false \/ attempts_before k trace = 2%nat ->
        exists r,
          trace !! (k + 1)%nat = Some (EvSend r) /\
          err r = d /\ willRetry r = false /\
          length trace = (k + 2)%nat /\
          filter (fun r => terminal_failure r = true) (sent trace) = [r])
  /\ (failed_terminally trace = false ->
      filter (fun r => terminal_failure r = true) (sent trace) = []).
Proof.
  intros Hret.
  apply downloadModule_traces in Hret
    as [->|[(t & d1 & Hc1 & ->)
           |[(t & d1 & m1 & d2 & Hc1 & Hc2 & ->)
            |(t & d1 & m1 & d2 & m2 & d3 & Hc1 & Hc2 & ->)]]].
  - split; [simpl; lia|]. split; [|split].
    + intros k d Hk. trace_positions k Hk.
    + intros k d Hk. trace_positions k Hk.
    + done.
  - split; [simpl; lia|]. split; [|split].
    + intros k d Hk He Hr Hb. trace_positions k Hk. clash_condition.
    + intros k d Hk He Hcase. trace_positions k Hk.
      eexists. split; [reflexivity|]. rewrite (final_result_error _ _ He).
      repeat split. simpl.
      by rewrite filter_terminal_cons; unfold terminal_failure; simpl; rewrite He.
    + unfold failed_terminally. simpl. intros He.
      by rewrite filter_terminal_cons, final_result_terminal, He.
  - split; [simpl; lia|]. split; [|split].
    + intros k d Hk He Hr Hb. trace_positions k Hk.
      * do 2 eexists. repeat split.
      * clash_condition.
    + intros k d Hk He Hcase. trace_positions k Hk.
      * destruct Hcase as [Hr|Hn]; [clash_condition | discriminate Hn].
      * eexists. split; [reflexivity|]. rewrite (final_result_error _ _ He).
        repeat split. simpl.
        rewrite !filter_terminal_cons, retry_result_not_terminal.
        by unfold terminal_failure; simpl; rewrite He.
    + unfold failed_terminally. simpl. intros He.
      by rewrite !filter_terminal_cons, retry_result_not_terminal,
           final_result_terminal, He.
  - split; [simpl; lia|]. split; [|split].
    + intros k d Hk He Hr Hb. trace_positions k Hk.
      * do 2 eexists. repeat split.
      * do 2 eexists. repeat split.
      * unfold attempts_before in Hb. simpl in Hb. lia.
    + intros k d Hk He Hcase. trace_positions k Hk.
      * destruct Hcase as [Hr|Hn]; [clash_condition | discriminate Hn].
      * destruct Hcase as [Hr|Hn]; [clash_condition | discriminate Hn].
      * eexists. split; [reflexivity|]. rewrite (final_result_error _ _ He).
        repeat split. simpl.
        rewrite !filter_terminal_cons, !retry_result_not_terminal.
        by unfold terminal_failure; simpl; rewrite He.
    + unfold failed_terminally. simpl. intros He.
      by rewrite !filter_terminal_cons, !retry_result_not_terminal,
           final_result_terminal, He.
Qed.

End Worker.

Lemma worker_retry_policy_witness :
  let trace := trace_of untagged_widget in
  exists m' w' d,
    downloadModule (ops := sample_ops) untagged_widget sample_world
    = Ret (trace, m', w') /\
    trace !! 1%nat = Some (EvDownload d) /\
    is_error d = true /\ retryable d = true /\
    (attempts_before 1 trace < 2)%nat /\
    (length (downloads trace) <= 3)%nat /\
    exists r d',
      trace !! 2%nat = Some (EvSend r) /\ err r = d /\ willRetry r = true /\
      trace !! 3%nat = Some (EvSleep (5 * Second)) /\
      trace !! 4%nat = Some (EvDownload d').
Proof.
  intros trace.
  assert (exists m' w', downloadModule (ops := sample_ops) untagged_widget sample_world
                        = Ret (trace, m', w')) as (m' & w' & Hret).
  { do 2 eexists. vm_compute. reflexivity. }
  assert (exists d, trace !! 1%nat = Some (EvDownload d) /\ is_error d = true /\
                    retryable d = true) as (d & Hk & He & Hr).
  { eexists. split; [vm_compute; reflexivity|]. by split. }
  assert (attempts_before 1 trace < 2)%nat as Hbefore by (vm_compute; lia).
  exists m', w', d.
  pose proof (worker_retry_policy (ops := sample_ops) untagged_widget sample_world
                trace m' w' Hret) as (Hmax & Hretry & _ & _).
  refine (conj Hret (conj Hk (conj He (conj Hr (conj Hbefore (conj Hmax _)))))).
  exact (Hretry 1%nat d Hk He Hr Hbefore).
Defined.

(** ** Up-to-date declarations *)

Section UpToDate.

Variable json_Unmarshal : string -> GHModuleReleases + string.
Variable extract : node -> string -> gmap string node -> error * gmap string node.
Variable sha1_base64 : string -> string.

Let ops : PuppetModule GithubTarballModule :=
  GithubTarballModule_PuppetModule json_Unmarshal extract sha1_base64.

Lemma IsUpToDate_installed m0 w t :
  Github.TargetFolder m0 = Ret t ->
  (installed m0 t w /\ Github.IsUpToDate m0 w = Ret (true, w))
  \/ (~ installed m0 t w /\ exists w', Github.IsUpToDate m0 w = Ret (false, w')).
Proof.
  intros Ht. unfold Github.IsUpToDate, installed. rewrite Ht. simpl.
  unfold os_Stat, ioutil_ReadFile.
  destruct (fs w !! t) as [n|] eqn:Hstat.
  - destruct (String.eqb_spec (version m0) "") as [Hv|Hv].
    + left. eauto.
    + destruct (fs w !! GoPath.Join [t; ".version"]) as [[|v]|] eqn:Hfile.
      * right. split; [|eauto]. intros [_ [?|?]]; done.
      * destruct (String.eqb_spec v (version m0)) as [->|Hne].
        -- left. eauto.
        -- right. split; [|eauto]. intros [_ [?|?]]; [done|congruence].
      * right. split; [|eauto]. intros [_ [?|?]]; done.
  - right. split; [|eauto]. by intros [[? ?] _].
Qed.

Lemma retries_trace_not_skipped {M} d (m0 : M) more :
  Forall (fun r => skipped r = false) (sent (retries_trace d m0 more)).
Proof.
  revert d m0. induction more as [|[d1 m1] more IH]; intros d m0; [constructor|].
  simpl. constructor; [done|]. apply IH.
Qed.

(** C6: the worker sends a skipped result for a declaration exactly when
    its target folder exists and either no version is declared or the
    [.version] file of the folder holds the declared version; it then
    removes nothing, downloads nothing and leaves the filesystem and the
    network as they were. *)
Theorem skipped_iff_up_to_date (m0 : GithubTarballModule) (w : World) (t : string) :
  Github.TargetFolder m0 = Ret t ->
  ((exists trace m' w',
       downloadModule (ops := ops) m0 w = Ret (trace, m', w') /\
       exists r, r ∈ sent trace /\ skipped r = true)
   <-> installed m0 t w)
  /\ (forall trace m' w',
        downloadModule (ops := ops) m0 w = Ret (trace, m', w') ->
        (exists r, r ∈ sent trace /\ skipped r = true) ->
        trace = [EvSend (skipped_result m0)] /\
        removals trace = [] /\ downloads trace = [] /\ w' = w).
Proof.
  intros Ht.
  assert (forall trace m' w',
    downloadModule (ops := ops) m0 w = Ret (trace, m', w') ->
    (exists r, r ∈ sent trace /\ skipped r = true) ->
    installed m0 t w /\ trace = [EvSend (skipped_result m0)] /\ w' = w) as Hskip.
  { intros trace m' w' Hret (r & Hin & Hr).
    destruct (IsUpToDate_installed m0 w t Ht) as [[Hinst Hup]|[_ [w0 Hup]]].
    - apply downloadModule_shape in Hret
        as [(Hup' & _ & ->)|(? & ? & ? & ? & ? & ? & ? & Hup' & _)];
        change (IsUpToDate m0 w) with (Github.IsUpToDate m0 w) in Hup';
        rewrite Hup in Hup'; by simplify_eq.
    - apply downloadModule_shape in Hret
        as [(Hup' & _ & ->)|(? & ? & d1 & m1 & ? & more & derr & Hup' & _ & _ & _ & _ & _ & ->)];
        change (IsUpToDate m0 w) with (Github.IsUpToDate m0 w) in Hup';
        rewrite Hup in Hup'; simplify_eq.
      exfalso. unfold sent in Hin. simpl in Hin. rewrite omap_app in Hin.
      apply elem_of_app in Hin as [Hin|Hin].
      + pose proof (retries_trace_not_skipped d1 m1 more) as Hall.
        rewrite Forall_forall in Hall. apply Hall in Hin. congruence.
      + simpl in Hin. apply list_elem_of_singleton in Hin. subst r.
        unfold final_result in Hr. by destruct (is_error derr). }
  split.
  - split.
    + intros (trace & m' & w' & Hret & Hr). by apply (Hskip _ _ _ Hret Hr).
    + intros Hinst.
      destruct (IsUpToDate_installed m0 w t Ht) as [[_ Hup]|[Hno _]]; [|done].
      exists [EvSend (skipped_result m0)], m0, w. split.
      * unfold downloadModule.
        change (IsUpToDate m0 w) with (Github.IsUpToDate m0 w). by rewrite Hup.
      * exists (skipped_result m0). split; [|done]. simpl. apply list_elem_of_here.
  - intros trace m' w' Hret Hr.
    destruct (Hskip _ _ _ Hret Hr) as (_ & -> & ->). done.
Qed.

End UpToDate.

Lemma skipped_iff_up_to_date_witness :
  let w := world_of widget_installed (widget_host (tags_json widget_tags)) in
  Github.TargetFolder my_widget = Ret "/srv/puppet/modules/widget" /\
  installed my_widget "/srv/puppet/modules/widget" w /\
  exists trace m' w',
    downloadModule (ops := sample_ops) my_widget w = Ret (trace, m', w') /\
    exists r, r ∈ sent trace /\ skipped r = true.
Proof.
  intros w.
  assert (Github.TargetFolder my_widget = Ret "/srv/puppet/modules/widget") as Ht
    by reflexivity.
  assert (installed my_widget "/srv/puppet/modules/widget" w) as Hinst.
  { split; [by eexists|]. by right. }
  refine (conj Ht (conj Hinst _)).
  exact (proj2 (proj1 (skipped_iff_up_to_date sample_Unmarshal sample_extract
                         sample_fingerprint my_widget w _ Ht)) Hinst).
Defined.

(** ** The aggregator *)

Section Aggregator.

Context {M : Type} {ops : PuppetModule M} {moduleFile : Type}.
Variable NewMetadataFile : string -> option moduleFile.

(** C7, as the code has it: for a skipped result the aggregator writes no
    log line, counts no failure and calls [Processed] once; with transitive
    discovery disabled it does nothing else, with discovery enabled it first
    builds the metadata file of the target folder and, when there is one,
    counts it as pending work and enqueues it. *)
Theorem parseResult_skipped (st : Aggregator moduleFile) (r : DownloadResult M) :
  skipped r = true -> err_error (err r) = None ->
  parseResult NewMetadataFile false st r = Ret (call_Processed (m r) st)
  /\ (forall t, TargetFolder (m r) = Ret t ->
        parseResult NewMetadataFile true st r
        = Ret (call_Processed (m r) (discover NewMetadataFile t st)))
  /\ (forall deps st',
        parseResult NewMetadataFile deps st r = Ret st' ->
        logged st' = logged st /\
        downloadErrors st' = downloadErrors st /\
        done_calls st' = done_calls st ++ [Processed (m r)]).
Proof.
  intros Hskip Herr. unfold parseResult. rewrite Herr, Hskip. simpl.
  split; [done|]. split.
  - intros t ->. simpl. unfold discover. by destruct (NewMetadataFile _).
  - intros [|] st' Hret.
    + destruct (TargetFolder (m r)); simpl in Hret; try discriminate.
      destruct (NewMetadataFile _); simpl in Hret; by simplify_eq.
    + simpl in Hret. by simplify_eq.
Qed.

End Aggregator.

Lemma parseResult_skipped_witness :
  let r := skipped_result my_widget in
  let st := Aggregator_start 1 in
  let t := "/srv/puppet/modules/widget" in
  skipped r = true /\
  err_error (err r) = None /\
  @TargetFolder _ sample_ops (m r) = Ret t /\
  parseResult (ops := sample_ops) (NewMetadataFile_in widget_with_metadata) false st r
  = Ret (call_Processed (ops := sample_ops) my_widget st) /\
  parseResult (ops := sample_ops) (NewMetadataFile_in widget_with_metadata) true st r
  = Ret (call_Processed (ops := sample_ops) my_widget
           (discover (NewMetadataFile_in widget_with_metadata) t st)).
Proof.
  intros r st t.
  pose proof (parseResult_skipped (ops := sample_ops)
                (NewMetadataFile_in widget_with_metadata) st r eq_refl eq_refl)
    as (Hoff & Hon & _).
  exact (conj eq_refl (conj eq_refl (conj eq_refl (conj Hoff (Hon t eq_refl))))).
Defined.

(** C7 as the specification words it fails: with transitive discovery
    enabled, the skipped result of an installed module that has a
    [metadata.json] makes the aggregator enqueue that file and count it as
    pending work before it calls [Processed]. *)
Lemma skipped_result_enqueues_metadata :
  exists st',
    parseResult (ops := sample_ops) (NewMetadataFile_in widget_with_metadata) true
      (Aggregator_start 1) (skipped_result my_widget) = Ret st' /\
    metadataFiles st' = [ {| Filename := "/srv/puppet/modules/widget/metadata.json" |} ] /\
    metadataFiles (Aggregator_start (moduleFile := MetadataFile) 1) = [] /\
    wg st' = 1 + 1 - 1 /\
    logged st' = [] /\ done_calls st' = [0%nat].
Proof. eexists. split; [vm_compute; reflexivity|]. by repeat split. Qed.

(** ** The deduplicator *)

Lemma select_at_cons {A} (keep : nat -> bool) (x : A) l :
  select_at keep (x :: l)
  = (if keep 0%nat then [x] else []) ++ select_at (keep ∘ S) l.
Proof. unfold select_at. rewrite imap_cons. simpl. by destruct (keep 0%nat). Qed.

Lemma select_at_ext {A} (keep keep' : nat -> bool) (l : list A) :
  (forall i, (i < length l)%nat -> keep i = keep' i) ->
  select_at keep l = select_at keep' l.
Proof.
  intros Hext. unfold select_at. f_equal. apply imap_ext.
  intros i x Hi. by rewrite Hext; [|eapply lookup_lt_Some].
Qed.

(** The selected and the rejected elements are all the elements. *)
Lemma select_at_partition {A} (keep : nat -> bool) (l : list A) :
  select_at keep l ++ select_at (negb ∘ keep) l ≡ₚ l.
Proof.
  revert keep. induction l as [|x l IH]; intros keep; [done|].
  rewrite !select_at_cons. simpl. destruct (keep 0%nat); simpl.
  - f_equiv. apply (IH (keep ∘ S)).
  - rewrite <- Permutation_middle. f_equiv. apply (IH (keep ∘ S)).
Qed.

Lemma select_at_Forall2 {A B} (R : A -> B -> Prop) (keep : nat -> bool) l k :
  Forall2 R l k -> Forall2 R (select_at keep l) (select_at keep k).
Proof.
  intros HR. revert keep. induction HR as [|x y l k Hxy _ IH]; intros keep.
  - constructor.
  - rewrite !select_at_cons. destruct (keep 0%nat); simpl.
    + constructor; [done|apply IH].
    + apply IH.
Qed.

Lemma fresh_at_S seen t ts i :
  fresh_at seen (t :: ts) (S i) = fresh_at (seen ++ [t]) ts i.
Proof.
  unfold fresh_at. simpl. destruct (ts !! i); [|done].
  by rewrite <- app_assoc.
Qed.

Lemma fresh_at_seen seen t ts i :
  t ∈ seen -> fresh_at (seen ++ [t]) ts i = fresh_at seen ts i.
Proof.
  intros Hin. unfold fresh_at. destruct (ts !! i) as [t'|]; [|done].
  apply bool_decide_ext. rewrite !elem_of_app, list_elem_of_singleton.
  split.
  - intros Hn [?|?]; apply Hn; auto.
  - intros Hn [[?|Heq]|?]; apply Hn; subst; auto.
Qed.

Lemma fresh_at_0 seen t ts : fresh_at seen (t :: ts) 0 = bool_decide (t ∉ seen).
Proof. unfold fresh_at. simpl. by rewrite app_nil_r. Qed.

(** The first occurrences are the distinct elements, each once. *)
Lemma select_fresh_distinct ts : forall seen,
  NoDup (select_at (fresh_at seen ts) ts) /\
  (forall t, t ∈ select_at (fresh_at seen ts) ts <-> t ∈ ts /\ t ∉ seen).
Proof.
  induction ts as [|t ts IH]; intros seen.
  - split; [constructor|]. intros t. cbn. split; [by intros ?%elem_of_nil|].
    by intros [?%elem_of_nil _].
  - rewrite select_at_cons, fresh_at_0.
    rewrite (select_at_ext _ (fresh_at (seen ++ [t]) ts))
      by (intros i _; apply fresh_at_S).
    destruct (IH (seen ++ [t])) as [Hnd Hmem].
    case_bool_decide as Hfresh; simpl.
    + split.
      * apply NoDup_cons. split; [|done]. rewrite Hmem, elem_of_app, list_elem_of_singleton.
        tauto.
      * intros x. rewrite !elem_of_cons, Hmem, elem_of_app, list_elem_of_singleton.
        destruct (decide (x = t)) as [->|Hne]; tauto.
    + split; [done|].
      intros x. rewrite elem_of_cons, Hmem, elem_of_app, list_elem_of_singleton.
      destruct (decide (x = t)) as [->|Hne]; tauto.
Qed.

Section Deduplicate.

Context {M : Type} {ops : PuppetModule M}.
Variables cache_folder env : string.

Lemma deduplicate_loop_spec (rest : list M) (ts : list string) :
  Forall2 (fun d t => TargetFolder (prepared cache_folder env d) = Ret t) rest ts ->
  forall (seen : list string) (modules : gmap string bool),
    (forall t, is_Some (modules !! t) <-> t ∈ seen) ->
    deduplicate_loop cache_folder env modules rest
    = Ret (select_at (fresh_at seen ts) (prepared cache_folder env <$> rest),
           select_at (negb ∘ fresh_at seen ts) (prepared cache_folder env <$> rest)).
Proof.
  induction 1 as [|d t rest ts Ht _ IH]; intros seen modules Hseen; [done|].
  cbn [deduplicate_loop]. fold (prepared cache_folder env d).
  rewrite Ht. cbn [mbind Run_bind]. rewrite fmap_cons, !select_at_cons.
  cbn [compose]. rewrite fresh_at_0.
  destruct (modules !! t) as [b|] eqn:Hlook.
  - assert (t ∈ seen) as Hin by (apply Hseen; eauto).
    rewrite (IH seen modules Hseen). cbn [mbind Run_bind].
    rewrite bool_decide_false by tauto. simpl. do 2 f_equal.
    + apply select_at_ext. intros i _. cbn [compose].
      by rewrite fresh_at_S, fresh_at_seen.
    + f_equal. apply select_at_ext. intros i _. cbn [compose].
      by rewrite fresh_at_S, fresh_at_seen.
  - assert (t ∉ seen) as Hin.
    { intros Hin%Hseen. rewrite Hlook in Hin. by destruct Hin. }
    rewrite (IH (seen ++ [t]) (<[t := true]> modules)).
    + cbn [mbind Run_bind]. rewrite bool_decide_true by done. simpl. do 2 f_equal.
      * f_equal. apply select_at_ext. intros i _. cbn [compose].
        by rewrite fresh_at_S.
      * apply select_at_ext. intros i _. cbn [compose]. by rewrite fresh_at_S.
    + intros t'. rewrite elem_of_app, list_elem_of_singleton, <- Hseen.
      destruct (decide (t = t')) as [->|Hne].
      * rewrite lookup_insert_eq. split; eauto.
      * rewrite lookup_insert_ne by done. split; [tauto|]. intros [?|?]; [done|congruence].
Qed.

(** C4: the deduplicator forwards the declaration at position [i] exactly
    when its target folder differs from the target folder of every earlier
    declaration; it calls [Processed] on the others and does not forward
    them; so the forwarded declarations have the distinct target folders of
    the input, each once. *)
Theorem deduplicate_first_wins (ds : list M) (ts : list string) :
  Forall2 (fun d t => TargetFolder (prepared cache_folder env d) = Ret t) ds ts ->
  deduplicate ds cache_folder env
  = Ret (select_at (first_occurrence ts) (prepared cache_folder env <$> ds),
         select_at (negb ∘ first_occurrence ts) (prepared cache_folder env <$> ds))
  /\ (forall i t, ts !! i = Some t ->
        (first_occurrence ts i = true <->
         forall j t', (j < i)%nat -> ts !! j = Some t' -> t' <> t))
  /\ Forall2 (fun d t => TargetFolder d = Ret t)
       (select_at (first_occurrence ts) (prepared cache_folder env <$> ds))
       (select_at (first_occurrence ts) ts)
  /\ NoDup (select_at (first_occurrence ts) ts)
  /\ (forall t, t ∈ select_at (first_occurrence ts) ts <-> t ∈ ts).
Proof.
  intros Hts. split; [|split; [|split; [|split]]].
  - unfold deduplicate.
    rewrite (deduplicate_loop_spec ds ts Hts [] ∅); [done|].
    intros t. rewrite lookup_empty. split; [by intros []|by intros ?%elem_of_nil].
  - intros i t Hi. unfold first_occurrence. rewrite Hi, bool_decide_eq_true.
    rewrite elem_of_take. split.
    + intros Hnot j t' Hj Hlook ->. apply Hnot. eauto.
    + intros Hall (j & Hlook & Hj). by apply (Hall j t).
  - apply select_at_Forall2. by apply Forall2_fmap_l.
  - apply (select_fresh_distinct ts []).
  - intros t. change (first_occurrence ts) with (fresh_at [] ts).
    rewrite (proj2 (select_fresh_distinct ts [])). split; [tauto|].
    intros ?. split; [done|]. by intros ?%elem_of_nil.
Qed.

End Deduplicate.

Lemma deduplicate_first_wins_witness :
  let ts := ["/srv/puppet/modules/widget"; "/srv/puppet/modules/widget";
             "/srv/puppet/modules/gadget"] in
  Forall2 (fun d t => @TargetFolder _ sample_ops
                        (prepared (ops := sample_ops) ".cache" "/srv/puppet" d) = Ret t)
          manifest ts /\
  exists first second third,
    deduplicate (ops := sample_ops) manifest ".cache" "/srv/puppet"
    = Ret ([first; third], [second]) /\
    name first = "acme/my-widget" /\ name second = "other/puppet-widget" /\
    name third = "acme/gadget".
Proof.
  intros ts.
  assert (Forall2 (fun d t => @TargetFolder _ sample_ops
                     (prepared (ops := sample_ops) ".cache" "/srv/puppet" d) = Ret t)
                  manifest ts) as Hts by (repeat constructor).
  split; [exact Hts|].
  do 3 eexists.
  split; [exact (proj1 (deduplicate_first_wins (ops := sample_ops)
                          ".cache" "/srv/puppet" manifest ts Hts))|].
  by repeat split.
Defined.

(** ** Finalization and the exit code *)

Lemma wrap_int_small x : - 2 ^ 63 <= x < 2 ^ 63 -> wrap_int x = x.
Proof. intros Hx. unfold wrap_int. rewrite Z.mod_small; lia. Qed.

Section Accounting.

Context {M : Type} {ops : PuppetModule M} {moduleFile : Type}.
Variable NewMetadataFile : string -> option moduleFile.

(** One result: [Processed] is called exactly on the results that release,
    an error is counted exactly on the results that count. *)
Lemma parseResult_accounts deps (st st' : Aggregator moduleFile) (r : DownloadResult M) :
  parseResult NewMetadataFile deps st r = Ret st' ->
  done_calls st' = done_calls st ++ (if releases r then [Processed (m r)] else [])
  /\ downloadErrors st'
     = if counted r then wrap_int (downloadErrors st + 1) else downloadErrors st.
Proof.
  unfold parseResult, releases, counted, is_error.
  destruct (err_error (err r)) as [e|]; simpl.
  - destruct (retryable (err r) && willRetry r); intros; simplify_eq; simpl.
    + by rewrite app_nil_r.
    + done.
  - intros Hret. destruct deps; simpl in Hret.
    + destruct (TargetFolder (m r)); simpl in Hret; try discriminate.
      destruct (NewMetadataFile _); simpl in Hret; simplify_eq; simpl;
        by destruct (skipped r).
    + simplify_eq. simpl. by destruct (skipped r).
Qed.

Lemma parseResults_loop_accounts deps results : forall (st st' : Aggregator moduleFile),
  parseResults_loop NewMetadataFile deps st results = Ret st' ->
  done_calls st'
  = done_calls st ++ ((Processed ∘ m) <$> filter (fun r => releases r = true) results)
  /\ (0 <= downloadErrors st ->
      downloadErrors st + Z.of_nat (length results) < 2 ^ 63 ->
      downloadErrors st'
      = downloadErrors st
        + Z.of_nat (length (filter (fun r => counted r = true) results))).
Proof.
  induction results as [|r results IH]; intros st st' Hret.
  - simpl in Hret. simplify_eq. rewrite app_nil_r. split; [done|]. simpl. lia.
  - cbn [parseResults_loop] in Hret.
    destruct (parseResult NewMetadataFile deps st r) as [st1| |] eqn:Hone;
      cbn [mbind Run_bind] in Hret; try discriminate.
    apply parseResult_accounts in Hone as [Hcalls Herrs].
    apply IH in Hret as [Hcalls' Herrs'].
    rewrite !filter_cons. split.
    + rewrite Hcalls', Hcalls, <- app_assoc. f_equal.
      destruct (releases r); by case_decide.
    + intros Hpos Hsmall. rewrite length_cons in Hsmall.
      destruct (counted r) eqn:Hc; rewrite Herrs in Herrs'.
      * rewrite wrap_int_small in Herrs' by lia.
        rewrite Herrs' by lia. case_decide; [|done]. rewrite length_cons. lia.
      * rewrite Herrs' by lia. by case_decide.
Qed.

End Accounting.

Section WorkerResults.

Context {M : Type} {ops : PuppetModule M}.

Lemma sent_app (t1 t2 : list (WorkerEvent M)) : sent (t1 ++ t2) = sent t1 ++ sent t2.
Proof. apply omap_app. Qed.

Lemma downloads_app (t1 t2 : list (WorkerEvent M)) :
  downloads (t1 ++ t2) = downloads t1 ++ downloads t2.
Proof. apply omap_app. Qed.

(** The results sent between two downloads are will-retry results of
    retryable errors: the aggregator neither releases nor counts them. *)
Lemma retried_results d (m0 : M) more d' m' :
  retried d m0 more d' m' ->
  Forall (fun r => willRetry r = true /\ releases r = false /\ counted r = false
                   /\ terminal_failure r = false)
         (sent (retries_trace d m0 more))
  /\ downloads (retries_trace d m0 more) = fst <$> more
  /\ last (d :: (fst <$> more)) = Some d'.
Proof.
  induction 1 as [|d m0 w d1 m1 w1 rest d' m' Hcond _ _ (IHsent & IHdl & IHlast)].
  - repeat split. constructor.
  - split; [|split].
    + simpl. constructor; [|done].
      unfold releases, counted, terminal_failure. simpl.
      apply andb_prop in Hcond as [-> ->]. by repeat split.
    + simpl. by rewrite IHdl.
    + simpl in *. exact IHlast.
Qed.

Lemma retried_after d (m0 : M) more d' m' :
  retried d m0 more d' m' -> after_downloads m0 m'.
Proof.
  induction 1 as [|d m0 w d1 m1 w1 rest d' m' _ Hdl _ IH]; [constructor|].
  by econstructor.
Qed.

Lemma after_downloads_Processed {laws : PuppetModuleLaws ops} (m0 m' : M) :
  after_downloads m0 m' -> Processed m' = Processed m0.
Proof.
  induction 1 as [|m0 w d m1 w1 m' Hdl _ IH]; [done|].
  rewrite IH. by eapply Download_Processed.
Qed.

Lemma filter_none {A} (P : A -> Prop) `{forall x, Decision (P x)} (l : list A) :
  Forall (fun x => ~ P x) l -> filter P l = [].
Proof.
  induction 1 as [|x l Hx _ IH]; [done|]. by rewrite filter_cons_False.
Qed.

(** What the results of one worker run amount to for the aggregator: one
    release, of the declaration itself, and one counted error exactly when
    the declaration failed terminally. *)
Lemma worker_results (m0 : M) w trace m' w' :
  downloadModule m0 w = Ret (trace, m', w') ->
  (exists mf, m <$> filter (fun r => releases r = true) (sent trace) = [mf]
              /\ after_downloads m0 mf)
  /\ length (filter (fun r => counted r = true) (sent trace))
     = (if failed_terminally trace then 1 else 0)%nat
  /\ filter (fun r => counted r = true) (sent trace)
     = filter (fun r => terminal_failure r = true) (sent trace)
  /\ Forall (fun r => willRetry r = true -> releases r = false) (sent trace).
Proof.
  intros Hret. apply downloadModule_shape in Hret
    as [(_ & _ & ->)|(w0 & t & d1 & m1 & w1 & more & derr & _ & _ & Hdl &
                       Hchain & _ & _ & ->)].
  - split; [exists m0; split; [done|constructor]|].
    repeat split. repeat constructor. done.
  - assert (after_downloads m0 m') as Hcb.
    { econstructor; [exact Hdl|]. by eapply retried_after. }
    apply retried_results in Hchain as (Hsent & Hdls & Hlast).
    change ([EvRemoveAll t; EvDownload d1] ++ retries_trace d1 m1 more
            ++ [EvSend (final_result derr m')])
      with ([EvRemoveAll t; EvDownload d1]
            ++ (retries_trace d1 m1 more ++ [EvSend (final_result derr m')])).
    unfold failed_terminally.
    rewrite !sent_app, !downloads_app, Hdls. simpl.
    rewrite app_nil_r, Hlast, !filter_app.
    rewrite (filter_none (fun r => releases r = true)),
            (filter_none (fun r => counted r = true)),
            (filter_none (fun r => terminal_failure r = true)); simpl.
    + assert (releases (final_result derr m') = true
              /\ counted (final_result derr m') = is_error derr
              /\ terminal_failure (final_result derr m') = is_error derr
              /\ willRetry (final_result derr m') = false
              /\ m (final_result derr m') = m') as (Hrel & Hcnt & Hterm & Hwill & Hm).
      { unfold final_result, releases, counted, terminal_failure.
        destruct (is_error derr) eqn:He; simpl; rewrite ?He, ?andb_false_r; done. }
      rewrite !filter_cons, Hrel, Hcnt, Hterm.
      rewrite decide_True by done. simpl. rewrite Hm.
      split; [by exists m'|]. split; [|split].
      * destruct (is_error derr); by case_decide.
      * destruct (is_error derr); by repeat case_decide.
      * apply Forall_app. split.
        -- eapply Forall_impl; [exact Hsent|]. by intros r (_ & ? & _).
        -- constructor; [|constructor]. congruence.
    + eapply Forall_impl; [exact Hsent|]. intros r (_ & _ & _ & ?); congruence.
    + eapply Forall_impl; [exact Hsent|]. intros r (_ & _ & ? & _); congruence.
    + eapply Forall_impl; [exact Hsent|]. intros r (_ & ? & _); congruence.
Qed.

End WorkerResults.

Lemma calls_of_NoDup cb calls :
  NoDup calls -> cb ∈ calls -> calls_of cb calls = 1%nat.
Proof.
  unfold calls_of. induction 1 as [|c calls Hnotin Hnd IH]; intros Hin.
  - by apply elem_of_nil in Hin.
  - rewrite filter_cons. apply elem_of_cons in Hin as [->|Hin].
    + rewrite decide_True by done. simpl. f_equal.
      rewrite filter_none; [done|].
      apply Forall_forall. intros x Hx ->. done.
    + rewrite decide_False by (intros ->; done). by apply IH.
Qed.

Lemma calls_of_Permutation cb calls calls' :
  calls ≡ₚ calls' -> calls_of cb calls = calls_of cb calls'.
Proof. unfold calls_of. by intros ->. Qed.

Section Pool.

Context {M : Type} {ops : PuppetModule M}.

Lemma prepared_Processed {laws : PuppetModuleLaws ops} cache_folder env (m0 : M) :
  Processed (prepared cache_folder env m0) = Processed m0.
Proof. unfold prepared. by rewrite SetCacheFolder_Processed, SetEnvRoot_Processed. Qed.

(** The deduplicator loses no declaration: each one is forwarded or has its
    [Processed] called. *)
Lemma deduplicate_loop_partition cache_folder env (rest : list M) :
  forall modules out dropped,
    deduplicate_loop cache_folder env modules rest = Ret (out, dropped) ->
    out ++ dropped ≡ₚ prepared cache_folder env <$> rest.
Proof.
  induction rest as [|d rest IH]; intros modules out dropped Hret.
  - simpl in Hret. by simplify_eq.
  - cbn [deduplicate_loop] in Hret. fold (prepared cache_folder env d) in Hret.
    destruct (TargetFolder (prepared cache_folder env d)) as [t| |];
      cbn [mbind Run_bind] in Hret; try discriminate.
    destruct (modules !! t).
    + destruct (deduplicate_loop _ _ modules rest) as [[out' dropped']| |] eqn:Hrest;
        cbn [mbind Run_bind] in Hret; try discriminate.
      simplify_eq. apply IH in Hrest. rewrite fmap_cons, <- Hrest.
      by rewrite <- Permutation_middle.
    + destruct (deduplicate_loop _ _ _ rest) as [[out' dropped']| |] eqn:Hrest;
        cbn [mbind Run_bind] in Hret; try discriminate.
      simplify_eq. apply IH in Hrest. by rewrite fmap_cons, <- Hrest.
Qed.

(** All the results of a pool run: one release for each forwarded
    declaration, one counted error for each that failed terminally. *)
Lemma pool_results (out : list M) traces :
  pool_run out traces ->
  Forall2 after_downloads out
          (m <$> filter (fun r => releases r = true) (concat (sent <$> traces)))
  /\ length (filter (fun r => counted r = true) (concat (sent <$> traces)))
     = length (filter (fun trace => failed_terminally trace = true) traces)
  /\ filter (fun r => counted r = true) (concat (sent <$> traces))
     = filter (fun r => terminal_failure r = true) (concat (sent <$> traces))
  /\ Forall (fun r => willRetry r = true -> releases r = false)
            (concat (sent <$> traces)).
Proof.
  induction 1 as [|m0 trace out traces (w & m' & w' & Hrun) _ (IH1 & IH2 & IH3 & IH4)].
  - repeat split; constructor.
  - apply worker_results in Hrun as ((mf & H1 & Hmf) & H2 & H3 & H4).
    rewrite fmap_cons. cbn [concat]. rewrite !filter_app, fmap_app, length_app.
    rewrite H1, H2, IH2, H3, IH3. split; [by constructor|]. split; [|split; [done|]].
    + rewrite filter_cons. destruct (failed_terminally trace); by case_decide.
    + by apply Forall_app.
Qed.

Lemma pool_releases {laws : PuppetModuleLaws ops} (out : list M) traces :
  pool_run out traces ->
  (Processed ∘ m) <$> filter (fun r => releases r = true) (concat (sent <$> traces))
  = Processed <$> out.
Proof.
  intros (Hafter & _)%pool_results. rewrite list_fmap_compose.
  induction Hafter as [|m0 mf out mfs Hmf _ IH]; [done|].
  rewrite !fmap_cons, IH. f_equal. by apply after_downloads_Processed.
Qed.

End Pool.

Lemma Github_laws json_Unmarshal extract sha1_base64 :
  PuppetModuleLaws (GithubTarballModule_PuppetModule json_Unmarshal extract sha1_base64).
Proof.
  split; [done|done|].
  intros m0 w derr m' w' Hret. simpl in Hret. unfold Github.Download in Hret.
  destruct (Github.downloadURL json_Unmarshal m0 w) as [[[res m1] w1]| |] eqn:Hurl;
    cbn [mbind Run_bind] in Hret; try discriminate.
  apply downloadURL_effects in Hurl as (_ & _ & Hm1).
  assert (m' = m1) as ->.
  { unfold http_Get in Hret. run_cases Hret; by simplify_eq. }
  by destruct Hm1 as [->|(v & _ & ->)].
Qed.

Section Finalization.

Context {M : Type} {ops : PuppetModule M} {moduleFile : Type}.
Variable NewMetadataFile : string -> option moduleFile.

(** C3: in a run of the pipeline the [Processed] of every declaration is
    called exactly once, by the deduplicator when it drops the declaration
    and by the aggregator otherwise (on the skipped, the success or the
    terminal failure result of the declaration), and the aggregator calls no
    [Processed] on a will-retry result. *)
Theorem processed_exactly_once {laws : PuppetModuleLaws ops}
    (ds : list M) cache_folder env out dropped traces results deps pending st :
  NoDup (Processed <$> ds) ->
  deduplicate ds cache_folder env = Ret (out, dropped) ->
  pool_run out traces ->
  arrival traces results ->
  parseResults NewMetadataFile results deps pending = Ret st ->
  (forall d, d ∈ ds ->
     calls_of (Processed d) ((Processed <$> dropped) ++ done_calls st) = 1%nat)
  /\ done_calls st ≡ₚ Processed <$> out
  /\ (forall r st0 st1,
        r ∈ results -> willRetry r = true ->
        parseResult NewMetadataFile deps st0 r = Ret st1 ->
        done_calls st1 = done_calls st0).
Proof.
  intros Hnd Hdedup Hpool Harrival Hparse.
  apply deduplicate_loop_partition in Hdedup.
  apply parseResults_loop_accounts in Hparse as [Hcalls _]. simpl in Hcalls.
  assert (done_calls st ≡ₚ Processed <$> out) as Hdone.
  { rewrite Hcalls, <- (pool_releases out traces Hpool).
    unfold arrival in Harrival. by rewrite Harrival. }
  assert ((Processed <$> dropped) ++ done_calls st ≡ₚ Processed <$> ds) as Hall.
  { rewrite Hdone, <- fmap_app, (Permutation_app_comm dropped out), Hdedup.
    rewrite <- list_fmap_compose.
    assert (Processed ∘ prepared cache_folder env <$> ds = Processed <$> ds) as ->;
      [|done].
    apply list_fmap_ext. intros i d _. apply prepared_Processed. }
  split; [|split; [done|]].
  - intros d Hd. rewrite (calls_of_Permutation _ _ _ Hall).
    apply calls_of_NoDup; [done|]. by apply list_elem_of_fmap_2.
  - intros r st0 st1 Hr Hwill Hone.
    apply parseResult_accounts in Hone as [-> _].
    apply pool_results in Hpool as (_ & _ & _ & Hretry).
    unfold arrival in Harrival. rewrite <- Harrival in Hretry.
    rewrite Forall_forall in Hretry. rewrite (Hretry r Hr Hwill).
    apply app_nil_r.
Qed.

(** C8: the value that [main] passes to [os.Exit] is the number of
    declarations that failed terminally, which is the number of terminal
    failure results (will-retry, skipped and success results count for
    nothing); it is 0 when no declaration failed terminally. *)
Theorem exit_code_counts_failures
    (out : list M) traces results deps pending st :
  pool_run out traces ->
  arrival traces results ->
  parseResults NewMetadataFile results deps pending = Ret st ->
  Z.of_nat (length results) < 2 ^ 63 ->
  exit_code st
  = Z.of_nat (length (filter (fun trace => failed_terminally trace = true) traces))
  /\ exit_code st
     = Z.of_nat (length (filter (fun r => terminal_failure r = true) results))
  /\ (Forall (fun trace => failed_terminally trace = false) traces -> exit_code st = 0).
Proof.
  intros Hpool Harrival Hparse Hsmall.
  apply parseResults_loop_accounts in Hparse as [_ Herrs]. simpl in Herrs.
  specialize (Herrs ltac:(lia) ltac:(lia)).
  apply pool_results in Hpool as (_ & Hcount & Hsame & _).
  unfold arrival in Harrival. unfold exit_code. rewrite Herrs.
  assert (length (filter (fun r => counted r = true) results)
          = length (filter (fun trace => failed_terminally trace = true) traces)) as Hlen.
  { by rewrite Harrival. }
  split; [by rewrite Hlen|]. split.
  - by rewrite Harrival, Hsame.
  - intros Hnone. rewrite Hlen, filter_none; [done|].
    eapply Forall_impl; [exact Hnone|]. intros trace ->. done.
Qed.

End Finalization.

(** ** The sample run *)

Lemma sample_deduplicated :
  deduplicate (ops := sample_ops) manifest ".cache" "/srv/puppet"
  = Ret (sample_out, sample_dropped).
Proof. vm_compute. reflexivity. Qed.

Lemma sample_pool_run : pool_run (ops := sample_ops) sample_out sample_traces.
Proof.
  unfold pool_run, sample_traces, sample_out. cbn [fmap list_fmap].
  repeat (constructor; [exists sample_world; do 2 eexists; vm_compute; reflexivity|]).
  constructor.
Qed.

Lemma sample_arrival : arrival sample_traces sample_results.
Proof. unfold arrival, sample_results. symmetry. apply Permutation_rev. Qed.

Lemma sample_parsed :
  parseResults (ops := sample_ops) (NewMetadataFile_in ∅) sample_results true 3
  = Ret sample_end.
Proof. vm_compute. reflexivity. Qed.

Lemma processed_exactly_once_witness :
  NoDup (Github.Processed <$> manifest) /\
  deduplicate (ops := sample_ops) manifest ".cache" "/srv/puppet"
  = Ret (sample_out, sample_dropped) /\
  pool_run (ops := sample_ops) sample_out sample_traces /\
  arrival sample_traces sample_results /\
  parseResults (ops := sample_ops) (NewMetadataFile_in ∅) sample_results true 3
  = Ret sample_end /\
  forall d, d ∈ manifest ->
    calls_of (Github.Processed d)
             ((Github.Processed <$> sample_dropped) ++ done_calls sample_end) = 1%nat.
Proof.
  assert (NoDup (Github.Processed <$> manifest)) as Hnd.
  { apply (bool_decide_unpack _). vm_compute. reflexivity. }
  refine (conj Hnd (conj sample_deduplicated (conj sample_pool_run
           (conj sample_arrival (conj sample_parsed _))))).
  exact (proj1 (processed_exactly_once (ops := sample_ops)
                  (laws := Github_laws sample_Unmarshal sample_extract sample_fingerprint)
                  (NewMetadataFile_in ∅) manifest ".cache" "/srv/puppet"
                  sample_out sample_dropped sample_traces sample_results true 3
                  sample_end Hnd sample_deduplicated sample_pool_run
                  sample_arrival sample_parsed)).
Defined.

Lemma exit_code_counts_failures_witness :
  pool_run (ops := sample_ops) sample_out sample_traces /\
  arrival sample_traces sample_results /\
  parseResults (ops := sample_ops) (NewMetadataFile_in ∅) sample_results true 3
  = Ret sample_end /\
  Z.of_nat (length sample_results) < 2 ^ 63 /\
  exit_code sample_end
  = Z.of_nat (length (filter (fun trace => failed_terminally trace = true) sample_traces)).
Proof.
  assert (Z.of_nat (length sample_results) < 2 ^ 63) as Hsmall by (vm_compute; reflexivity).
  refine (conj sample_pool_run (conj sample_arrival (conj sample_parsed (conj Hsmall _)))).
  exact (proj1 (exit_code_counts_failures (ops := sample_ops)
                  (NewMetadataFile_in ∅) sample_out sample_traces sample_results
                  true 3 sample_end sample_pool_run sample_arrival sample_parsed Hsmall)).
Defined.

Example sample_exit_code : exit_code sample_end = 1.
Proof. reflexivity. Qed.

(** With an empty cache the same declaration costs two requests: the tags
    listing and the archive. *)
Example Download_cold_cache :
  exists derr m' w',
    Github.Download sample_Unmarshal sample_extract my_widget sample_world
    = Ret (derr, m', w') /\
    requests w' = ["https://api.github.com/repos/acme/puppet-my-widget/tags";
                   "https://api.github.com/repos/acme/puppet-my-widget/tarball/1.0.0"].
Proof. do 3 eexists. split; [vm_compute; reflexivity|reflexivity]. Qed.

(** * Further properties of the code *)

(** ** [GithubTarballModule]: the target folder *)

Lemma fields_go_nil f cur s :
  GoStrings.fields_go f cur s = [] <-> cur = None /\ all_chars f s = true.
Proof.
  revert cur. induction s as [|c s IH]; intros cur; simpl.
  - destruct cur; split; try done. by intros [? _].
  - destruct (f c) eqn:Hf; simpl.
    + destruct cur; [split; [done|by intros [? _]]|]. rewrite IH. tauto.
    + destruct cur; rewrite IH; (split; [by intros [? _]|by intros [_ ?]]).
Qed.

Lemma last_None_nil {A} (l : list A) : last l = None <-> l = [].
Proof.
  split; [|by intros ->]. induction l as [|x [|y l] IH]; try done.
  intros H. by apply IH in H.
Qed.

(** X1: [TargetFolder] ends the process when the environment root is empty,
    panics when the name holds nothing but separators (the empty name
    included), and returns a folder otherwise; its second [log.Fatal] is
    never reached. *)
Theorem TargetFolder_outcomes (m0 : GithubTarballModule) :
  (envRoot m0 = "" ->
   Github.TargetFolder m0 = Fatal "Environment root not defined")
  /\ (envRoot m0 <> "" -> all_chars Github.is_separator (name m0) = true ->
      Github.TargetFolder m0 = Panic "index out of range [-1]")
  /\ (envRoot m0 <> "" -> all_chars Github.is_separator (name m0) = false ->
      exists t, Github.TargetFolder m0 = Ret t)
  /\ Github.TargetFolder m0 <> Fatal "Oups".
Proof.
  unfold Github.TargetFolder.
  pose proof (FieldsFunc_fields (name m0) Github.is_separator) as Hfields.
  destruct (String.eqb_spec (envRoot m0) "") as [Henv|Henv].
  { repeat split; try done. }
  split; [done|].
  destruct (last (GoStrings.FieldsFunc (name m0) Github.is_separator))
    as [leaf|] eqn:Hlast.
  - apply last_Some in Hlast as Hsplit. destruct Hsplit as [pre Hsplit].
    rewrite Hsplit in Hfields. apply Forall_app in Hfields as [_ Hleaf].
    apply Forall_singleton in Hleaf as [Hne _].
    apply String.eqb_neq in Hne as Hne'. rewrite Hne'.
    split; [|split].
    + intros _ Hall. assert (GoStrings.FieldsFunc (name m0) Github.is_separator = [])
        as Hnil by (by apply fields_go_nil).
      rewrite Hsplit in Hnil. by destruct pre.
    + intros _ _. destruct (negb _); eauto.
    + by destruct (negb _).
  - apply last_None_nil, fields_go_nil in Hlast as [_ Hall].
    split; [done|]. split; [|done]. intros _ Hnot. congruence.
Qed.

Lemma TargetFolder_outcomes_witness :
  envRoot other_module = "" /\
  Github.TargetFolder other_module = Fatal "Environment root not defined" /\
  envRoot only_separators <> "" /\
  all_chars Github.is_separator (name only_separators) = true /\
  Github.TargetFolder only_separators = Panic "index out of range [-1]" /\
  envRoot my_widget <> "" /\
  all_chars Github.is_separator (name my_widget) = false /\
  exists t, Github.TargetFolder my_widget = Ret t.
Proof.
  pose proof (TargetFolder_outcomes other_module) as (Hfatal & _).
  pose proof (TargetFolder_outcomes only_separators) as (_ & Hpanic & _).
  pose proof (TargetFolder_outcomes my_widget) as (_ & _ & Hret & _).
  assert (envRoot only_separators <> "") as Henv1 by discriminate.
  assert (envRoot my_widget <> "") as Henv2 by discriminate.
  exact (conj eq_refl (conj (Hfatal eq_refl) (conj Henv1 (conj eq_refl
          (conj (Hpanic Henv1 eq_refl) (conj Henv2 (conj eq_refl
          (Hret Henv2 eq_refl)))))))).
Defined.

(** ** [GithubTarballModule]: the tags listing *)

Lemma find_version_Some v gr : forall i k,
  Github.find_version v i gr = Some k <->
  exists j, k = (i + j)%nat /\
    (exists rel, gr !! j = Some rel /\ GH.Name rel = v) /\
    (forall j' rel', (j' < j)%nat -> gr !! j' = Some rel' -> GH.Name rel' <> v).
Proof.
  induction gr as [|rel gr IH]; intros i k; simpl.
  - split; [done|]. by intros (j & _ & (rel & ? & _) & _).
  - destruct (String.eqb_spec v (GH.Name rel)) as [Heq|Hne].
    + split.
      * intros [= <-]. exists 0%nat. split; [lia|]. split; [by exists rel|]. lia.
      * intros (j & -> & _ & Hfirst). destruct j as [|j]; [f_equal; lia|].
        exfalso. by apply (Hfirst 0%nat rel); [lia| |].
    + rewrite IH. split.
      * intros (j & -> & Hrel & Hfirst). exists (S j). split; [lia|].
        split; [done|]. intros [|j'] rel' Hj' Hlook; simpl in Hlook.
        -- by simplify_eq.
        -- apply (Hfirst j' rel'); [lia|done].
      * intros (j & -> & (rel0 & Hlook & Hname) & Hfirst). destruct j as [|j].
        -- simpl in Hlook. by simplify_eq.
        -- exists j. split; [lia|]. split; [by exists rel0|].
           intros j' rel' Hj' Hl. apply (Hfirst (S j') rel'); [lia|done].
Qed.

Lemma find_version_None v gr : forall i,
  Github.find_version v i gr = None <-> Forall (fun rel => GH.Name rel <> v) gr.
Proof.
  induction gr as [|rel gr IH]; intros i; simpl.
  - split; [constructor|done].
  - destruct (String.eqb_spec v (GH.Name rel)) as [Heq|Hne].
    + split; [done|]. intros Hall. apply Forall_cons in Hall as [Hrel _]. done.
    + rewrite IH. rewrite Forall_cons. split; [|tauto]. by split.
Qed.

(** [find_version] gives the position of the first release that bears the
    name, and nothing exactly when no release bears it. *)
Lemma find_version_first (v : string) (gr : GHModuleReleases) :
  (forall k, Github.find_version v 0 gr = Some k <->
     (exists rel, gr !! k = Some rel /\ GH.Name rel = v) /\
     (forall j rel', (j < k)%nat -> gr !! j = Some rel' -> GH.Name rel' <> v))
  /\ (Github.find_version v 0 gr = None <->
      Forall (fun rel => GH.Name rel <> v) gr).
Proof.
  split; [|apply find_version_None].
  intros k. rewrite (find_version_Some v gr 0%nat k). split.
  - by intros (j & -> & ?).
  - intros ?. by exists k.
Qed.

Section TagsListing.

Variable json_Unmarshal : string -> GHModuleReleases + string.

Lemma tags_listing_unfold m0 w gr :
  tags_listing json_Unmarshal m0 w = Some gr ->
  exists resp body,
    net w (length (requests w)) (Github.tags_url m0) = GetOk resp /\
    (StatusCode resp =? 200) = true /\ Body resp = Some body /\
    json_Unmarshal body = inl gr.
Proof.
  unfold tags_listing. intros H. repeat case_match; simplify_eq. eauto 10.
Qed.

(** X2: with a version declared and a listing at hand, [downloadURL] returns
    the tarball URL of the first release that bears the declared version's
    name, and an error classified as not retryable when no release bears it;
    either way it makes the one tags request and leaves the declaration as it
    is. *)
Theorem downloadURL_declared (m0 : GithubTarballModule) (w : World)
    (gr : GHModuleReleases) :
  version m0 <> "" ->
  tags_listing json_Unmarshal m0 w = Some gr ->
  (forall k rel,
      gr !! k = Some rel -> GH.Name rel = version m0 ->
      (forall j rel', (j < k)%nat -> gr !! j = Some rel' -> GH.Name rel' <> version m0) ->
      Github.downloadURL json_Unmarshal m0 w
      = Ret (inl (GH.Tarball_url rel), m0, requested (Github.tags_url m0) w))
  /\ (Forall (fun rel => GH.Name rel <> version m0) gr ->
      exists msg,
        Github.downloadURL json_Unmarshal m0 w
        = Ret (inr (Classified {| err_error := Some msg; retryable := false |}),
               m0, requested (Github.tags_url m0) w)).
Proof.
  intros Hv (resp & body & Hnet & Hcode & Hbody & Hjson)%tags_listing_unfold.
  apply String.eqb_neq in Hv.
  unfold Github.downloadURL, requested, http_Get. simpl.
  rewrite Hnet, Hcode, Hbody, Hjson, Hv. simpl. split.
  - intros k rel Hk Hname Hfirst.
    assert (Github.find_version (version m0) 0 gr = Some k) as ->.
    { apply find_version_first. split; [by exists rel|done]. }
    by rewrite Hk.
  - intros Hnone. apply find_version_None with (i := 0%nat) in Hnone.
    rewrite Hnone. eauto.
Qed.

(** X3: with no version declared and a listing that is not empty,
    [downloadURL] binds the version of the declaration to the name of the
    first release of the listing and returns the tarball URL of that
    release. *)
Theorem downloadURL_latest (m0 : GithubTarballModule) (w : World)
    (first : GH.Release) (gr : GHModuleReleases) :
  version m0 = "" ->
  tags_listing json_Unmarshal m0 w = Some (first :: gr) ->
  Github.downloadURL json_Unmarshal m0 w
  = Ret (inl (GH.Tarball_url first), Github.set_version (GH.Name first) m0,
         requested (Github.tags_url m0) w).
Proof.
  intros Hv (resp & body & Hnet & Hcode & Hbody & Hjson)%tags_listing_unfold.
  unfold Github.downloadURL, requested, http_Get. simpl.
  by rewrite Hnet, Hcode, Hbody, Hjson, Hv.
Qed.

(** X4: [downloadURL] panics in one case only: no version is declared and
    the listing decodes to no release.  With a version declared, the index
    it reads is always within the listing. *)
Theorem downloadURL_panics_iff (m0 : GithubTarballModule) (w : World) (msg : string) :
  Github.downloadURL json_Unmarshal m0 w = Panic msg
  <-> version m0 = "" /\ tags_listing json_Unmarshal m0 w = Some []
      /\ msg = "index out of range [0] with length 0".
Proof.
  split.
  - unfold Github.downloadURL, tags_listing, http_Get. intros Hp.
    destruct (net w (length (requests w)) (Github.tags_url m0)) as [e|resp];
      [done|].
    destruct (StatusCode resp =? 200); [|done]. simpl in Hp.
    destruct (Body resp) as [body|]; [|done].
    destruct (json_Unmarshal body) as [gr|e]; [|done].
    destruct (String.eqb_spec (version m0) "") as [Hv|Hv]; simpl in Hp.
    + destruct gr as [|first gr]; simpl in Hp; [|done]. by simplify_eq.
    + destruct (Github.find_version (version m0) 0 gr) as [k|] eqn:Hfind; [|done].
      apply find_version_first in Hfind as [(rel & Hk & _) _].
      by rewrite Hk in Hp.
  - intros (Hv & (resp & body & Hnet & Hcode & Hbody & Hjson)%tags_listing_unfold & ->).
    unfold Github.downloadURL, http_Get.
    by rewrite Hnet, Hcode, Hbody, Hjson, Hv.
Qed.

End TagsListing.

Lemma downloadURL_declared_witness :
  version my_widget <> "" /\
  tags_listing sample_Unmarshal my_widget sample_world = Some widget_tags /\
  Github.downloadURL sample_Unmarshal my_widget sample_world
  = Ret (inl "https://api.github.com/repos/acme/puppet-my-widget/tarball/1.0.0",
         my_widget, requested (Github.tags_url my_widget) sample_world).
Proof.
  assert (version my_widget <> "") as Hv by discriminate.
  assert (tags_listing sample_Unmarshal my_widget sample_world = Some widget_tags)
    as Hl by (vm_compute; reflexivity).
  refine (conj Hv (conj Hl _)).
  refine (proj1 (downloadURL_declared sample_Unmarshal my_widget sample_world
                   widget_tags Hv Hl) 0%nat _ eq_refl eq_refl _).
  intros j rel' Hj. lia.
Defined.

Lemma downloadURL_latest_witness :
  version latest_widget = "" /\
  tags_listing sample_Unmarshal latest_widget sample_world = Some widget_tags /\
  exists url m',
    Github.downloadURL sample_Unmarshal latest_widget sample_world
    = Ret (inl url, m', requested (Github.tags_url latest_widget) sample_world) /\
    version m' = "1.0.0".
Proof.
  assert (tags_listing sample_Unmarshal latest_widget sample_world = Some widget_tags)
    as Hl by (vm_compute; reflexivity).
  refine (conj eq_refl (conj Hl _)).
  do 2 eexists. split.
  - exact (downloadURL_latest sample_Unmarshal latest_widget sample_world _ _
             eq_refl Hl).
  - reflexivity.
Defined.

(** ** [GithubTarballModule]: [Download] *)

Section DownloadProperties.

Variable json_Unmarshal : string -> GHModuleReleases + string.
Variable extract : node -> string -> gmap string node -> error * gmap string node.

Lemma set_version_same m0 : Github.set_version (version m0) m0 = m0.
Proof. by destruct m0. Qed.

(** What [Download] returns comes from [downloadURL] followed by the cache
    and the installation: the declaration is the one [downloadURL] left. *)
Lemma Download_after_listing m0 w derr m' w' :
  Github.Download json_Unmarshal extract m0 w = Ret (derr, m', w') ->
  exists res w1, Github.downloadURL json_Unmarshal m0 w = Ret (res, m', w1).
Proof.
  unfold Github.Download. intros Hret.
  destruct (Github.downloadURL json_Unmarshal m0 w) as [[[res m1] w1]| |] eqn:Hurl;
    cbn [mbind Run_bind] in Hret; try discriminate.
  assert (m' = m1) as ->; [|eauto].
  unfold http_Get in Hret. run_cases Hret; by simplify_eq.
Qed.

(** X5: [Download] changes nothing in a declaration but its version, and
    the version only when none was declared; the target folder of the
    declaration stays the same, whether the download succeeds or not. *)
Theorem Download_changes_version_only (m0 : GithubTarballModule) w derr m' w' :
  Github.Download json_Unmarshal extract m0 w = Ret (derr, m', w') ->
  (exists v, m' = Github.set_version v m0)
  /\ (version m0 <> "" -> m' = m0)
  /\ Github.TargetFolder m' = Github.TargetFolder m0.
Proof.
  intros (res & w1 & Hurl)%Download_after_listing.
  apply downloadURL_effects in Hurl as (_ & _ & [->|(v & Hv & ->)]).
  - split; [|done]. exists (version m0). by rewrite set_version_same.
  - split; [by exists v|]. split; [congruence|done].
Qed.

(** X6: which errors of [Download] are retryable.  The result is marked
    retryable exactly when the tags step failed, whatever the failure (a
    version that is not in the listing and a listing that cannot be decoded
    included), or when the request for the archive got no response.  Once
    the archive request has a response, whatever its status, nothing is
    retryable any more. *)
Theorem Download_retryable_iff (m0 : GithubTarballModule) w derr m' w' :
  Github.Download json_Unmarshal extract m0 w = Ret (derr, m', w') ->
  retryable derr = true <->
  (exists e w1, Github.downloadURL json_Unmarshal m0 w = Ret (inr e, m', w1))
  \/ (exists url w1 msg,
        Github.downloadURL json_Unmarshal m0 w = Ret (inl url, m', w1) /\
        os_Stat (Github.cache_blob m') w1 <> None /\
        net w1 (length (requests w1)) url = GetFails msg).
Proof.
  intros Hret. pose proof Hret as (res & w1 & Hurl)%Download_after_listing.
  unfold Github.Download in Hret. rewrite Hurl in Hret. cbn [mbind Run_bind] in Hret.
  destruct res as [url|e].
  - destruct (os_Stat (Github.cache_blob m') w1) as [missing|] eqn:Hstat.
    + unfold http_Get in Hret.
      destruct (net w1 (length (requests w1)) url) as [msg|resp] eqn:Hnet.
      * simplify_eq. simpl. split; [|done]. intros _. right.
        exists url, w1, msg. by rewrite Hstat.
      * split.
        -- intros Hr. exfalso. run_cases Hret; by simplify_eq.
        -- intros [(e & w2 & He)|(url' & w2 & msg & Hu & _ & Hfail)];
             [rewrite Hurl in He|rewrite Hurl in Hu]; simplify_eq.
           congruence.
    + split.
      * intros Hr. exfalso. run_cases Hret; by simplify_eq.
      * intros [(e & w2 & He)|(url' & w2 & msg & Hu & Hmiss & _)];
          [rewrite Hurl in He|rewrite Hurl in Hu]; by simplify_eq.
  - simplify_eq. simpl. split; [|done]. intros _. left. eauto.
Qed.

Lemma downloadToCache_requests m0 r w :
  requests (Github.downloadToCache m0 r w).2 = requests w.
Proof.
  unfold Github.downloadToCache, os_MkdirAll, os_Create, io_Copy.
  repeat case_match; by simplify_eq.
Qed.

(** X7: the requests of [Download]: first the tags listing, always; then
    the archive, exactly when the listing resolved a URL and the cache holds
    no blob for the resolved version; nothing else. *)
Theorem Download_requests (m0 : GithubTarballModule) w derr m' w' :
  Github.Download json_Unmarshal extract m0 w = Ret (derr, m', w') ->
  (requests w' = requests w ++ [Github.tags_url m0] /\
   ((exists e w1, Github.downloadURL json_Unmarshal m0 w = Ret (inr e, m', w1))
    \/ os_Stat (Github.cache_blob m') w = None))
  \/ (exists url w1,
        Github.downloadURL json_Unmarshal m0 w = Ret (inl url, m', w1) /\
        os_Stat (Github.cache_blob m') w <> None /\
        requests w' = requests w ++ [Github.tags_url m0; url]).
Proof.
  intros Hret. pose proof Hret as (res & w1 & Hurl)%Download_after_listing.
  unfold Github.Download in Hret. rewrite Hurl in Hret.
  cbn [mbind Run_bind] in Hret.
  pose proof Hurl as (Hreq & Hfs & _)%downloadURL_effects.
  destruct res as [url|e].
  2:{ left. simplify_eq. split; [done|]. left. eauto. }
  rewrite (os_Stat_same_fs _ _ _ Hfs) in Hret.
  assert (forall wc,
    match os_Open (Github.cache_blob m') wc with
    | inl r =>
        t ← Github.TargetFolder m';
        let '(err, fs') := extract r t (fs wc) in
        let w := set_fs fs' wc in
        match err with
        | Some e => Ret ({| err_error := Some e; retryable := false |}, m', w)
        | None =>
            t' ← Github.TargetFolder m';
            let versionFile := GoPath.Join [t'; ".version"] in
            match os_OpenFile_create versionFile w with
            | (Some _, w) =>
                Ret ({| err_error := Some ("Failed creating file " +:+ versionFile);
                        retryable := false |}, m', w)
            | (None, w) =>
                let w := WriteString versionFile (version m') w in
                Ret ({| err_error := None; retryable := false |}, m', w)
            end
        end
    | inr e => Ret ({| err_error := Some e; retryable := false |}, m', wc)
    end = Ret (derr, m', w') -> requests w' = requests wc) as Hinstall.
  { intros wc Hin.
    destruct (os_Open (Github.cache_blob m') wc); [|by simplify_eq].
    destruct (Github.TargetFolder m'); cbn [mbind Run_bind] in Hin;
      try discriminate.
    destruct (extract _ _ _) as [[e'|] fs']; [by simplify_eq|].
    destruct (os_OpenFile_create _ _) as [[e'|] w2] eqn:Hopen;
      apply os_OpenFile_create_requests in Hopen; simplify_eq; simpl.
    - by rewrite Hopen.
    - by rewrite WriteString_requests, Hopen. }
  destruct (os_Stat (Github.cache_blob m') w) as [missing|] eqn:Hstat.
  - right. exists url, w1. split; [done|]. split; [done|].
    assert (requests w' = requests w1 ++ [url]) as ->.
    { unfold http_Get in Hret.
      destruct (net w1 (length (requests w1)) url) as [msg|resp];
        [by simplify_eq|].
      apply Hinstall in Hret. by rewrite Hret, downloadToCache_requests. }
    by rewrite Hreq, <- app_assoc.
  - left. split; [|by right]. apply Hinstall in Hret. by rewrite Hret.
Qed.

End DownloadProperties.

Lemma Download_changes_version_only_witness :
  exists derr m' w',
    Github.Download sample_Unmarshal sample_extract latest_widget sample_world
    = Ret (derr, m', w') /\
    (exists v, m' = Github.set_version v latest_widget) /\
    Github.TargetFolder m' = Github.TargetFolder latest_widget.
Proof.
  destruct (Github.Download sample_Unmarshal sample_extract latest_widget sample_world)
    as [[[derr m'] w']| |] eqn:Hret; [|by vm_compute in Hret..].
  exists derr, m', w'. split; [reflexivity|].
  pose proof (Download_changes_version_only sample_Unmarshal sample_extract
                latest_widget sample_world derr m' w' Hret) as (Hv & _ & Ht).
  exact (conj Hv Ht).
Defined.

Lemma Download_retryable_iff_witness :
  exists derr m' w',
    Github.Download sample_Unmarshal sample_extract untagged_widget sample_world
    = Ret (derr, m', w') /\
    retryable derr = true /\
    ((exists e w1, Github.downloadURL sample_Unmarshal untagged_widget sample_world
                   = Ret (inr e, m', w1))
     \/ (exists url w1 msg,
           Github.downloadURL sample_Unmarshal untagged_widget sample_world
           = Ret (inl url, m', w1) /\
           os_Stat (Github.cache_blob m') w1 <> None /\
           net w1 (length (requests w1)) url = GetFails msg)).
Proof.
  destruct (Github.Download sample_Unmarshal sample_extract untagged_widget sample_world)
    as [[[derr m'] w']| |] eqn:Hret; [|by vm_compute in Hret..].
  exists derr, m', w'. split; [reflexivity|].
  assert (retryable derr = true) as Hr.
  { pose proof Hret as Hval. vm_compute in Hval. by simplify_eq. }
  split; [exact Hr|].
  exact (proj1 (Download_retryable_iff sample_Unmarshal sample_extract
                  untagged_widget sample_world derr m' w' Hret) Hr).
Defined.

Lemma Download_requests_witness :
  exists derr m' w',
    Github.Download sample_Unmarshal sample_extract my_widget sample_world
    = Ret (derr, m', w') /\
    ((requests w' = requests sample_world ++ [Github.tags_url my_widget] /\
      ((exists e w1, Github.downloadURL sample_Unmarshal my_widget sample_world
                     = Ret (inr e, m', w1))
       \/ os_Stat (Github.cache_blob m') sample_world = None))
     \/ (exists url w1,
           Github.downloadURL sample_Unmarshal my_widget sample_world
           = Ret (inl url, m', w1) /\
           os_Stat (Github.cache_blob m') sample_world <> None /\
           requests w' = requests sample_world ++ [Github.tags_url my_widget; url])).
Proof.
  destruct (Github.Download sample_Unmarshal sample_extract my_widget sample_world)
    as [[[derr m'] w']| |] eqn:Hret; [|by vm_compute in Hret..].
  exists derr, m', w'. split; [reflexivity|].
  exact (Download_requests sample_Unmarshal sample_extract my_widget sample_world
           derr m' w' Hret).
Defined.

(** ** [GithubTarballModule]: the cache and the version file *)

(** X8: what [downloadToCache] leaves behind.  When it reports no error the
    blob of the declaration's version holds the body; when the body cannot be
    read it reports the error of the copy and leaves an empty blob in the
    cache.  It makes no request. *)
Theorem downloadToCache_outcome (m0 : GithubTarballModule) (body : option string)
    (w : World) (e : error) (w' : World) :
  Github.downloadToCache m0 body w = (e, w') ->
  (e = None ->
   exists bytes, body = Some bytes /\ fs w' !! Github.cache_blob m0 = Some (File bytes))
  /\ (e = Some "unexpected EOF" ->
      body = None /\ fs w' !! Github.cache_blob m0 = Some (File ""))
  /\ requests w' = requests w.
Proof.
  intros Hdc. split; [|split].
  - intros ->. revert Hdc.
    unfold Github.downloadToCache, os_MkdirAll, os_Create, io_Copy, Github.cache_blob.
    intros Hdc. repeat case_match; simplify_eq; simpl;
      eexists; (split; [reflexivity|]); by rewrite lookup_insert_eq.
  - intros ->. revert Hdc.
    unfold Github.downloadToCache, os_MkdirAll, os_Create, io_Copy, Github.cache_blob.
    intros Hdc. repeat case_match; simplify_eq; simpl;
      (split; [reflexivity|]); by rewrite lookup_insert_eq.
  - rewrite <- (downloadToCache_requests m0 body w). by rewrite Hdc.
Qed.

Lemma downloadToCache_outcome_witness :
  exists w1 w2,
    Github.downloadToCache my_widget (Some "archive-bytes") sample_world = (None, w1) /\
    fs w1 !! Github.cache_blob my_widget = Some (File "archive-bytes") /\
    Github.downloadToCache my_widget None sample_world = (Some "unexpected EOF", w2) /\
    fs w2 !! Github.cache_blob my_widget = Some (File "").
Proof.
  destruct (Github.downloadToCache my_widget (Some "archive-bytes") sample_world)
    as [e1 w1] eqn:H1.
  destruct (Github.downloadToCache my_widget None sample_world) as [e2 w2] eqn:H2.
  assert (e1 = None) as He1 by (pose proof H1 as Hv; vm_compute in Hv; congruence).
  assert (e2 = Some "unexpected EOF") as He2
    by (pose proof H2 as Hv; vm_compute in Hv; congruence).
  pose proof (downloadToCache_outcome my_widget _ sample_world e1 w1 H1) as (Hok & _).
  pose proof (downloadToCache_outcome my_widget _ sample_world e2 w2 H2) as (_ & Heof & _).
  destruct (Hok He1) as (bytes & Hbody & Hblob).
  exists w1, w2. rewrite He1, He2.
  refine (conj eq_refl (conj _ (conj eq_refl (proj2 (Heof He2))))).
  by simplify_eq.
Defined.

Lemma prefix_app s x : String.prefix s (s +:+ x) = true.
Proof.
  induction s as [|c s IH]; simpl; [by destruct x|].
  destruct (ascii_dec c c); [done|congruence].
Qed.

Lemma prefix_length_eq s c :
  String.prefix s c = true -> (String.length c <= String.length s)%nat -> c = s.
Proof.
  revert c. induction s as [|a s IH]; intros [|b c]; simpl; try done.
  - lia.
  - destruct (ascii_dec a b) as [->|]; [|done]. intros Hp Hl. f_equal.
    apply IH; [done|lia].
Qed.

Section Installed.

Variable json_Unmarshal : string -> GHModuleReleases + string.
Variable extract : node -> string -> gmap string node -> error * gmap string node.

(** X9: after a [Download] that reports no error, the [.version] file of
    the target folder exists and its content begins with the version of the
    declaration (the file is written from its start and is not truncated).
    When, moreover, the target folder exists and the file is no longer than
    the version, [IsUpToDate] answers yes on what [Download] left. *)
Theorem Download_success_installs (m0 : GithubTarballModule) w derr m' w' :
  Github.Download json_Unmarshal extract m0 w = Ret (derr, m', w') ->
  err_error derr = None ->
  exists t c,
    Github.TargetFolder m' = Ret t /\
    fs w' !! GoPath.Join [t; ".version"] = Some (File c) /\
    String.prefix (version m') c = true /\
    (is_Some (fs w' !! t) ->
     (String.length c <= String.length (version m'))%nat ->
     Github.IsUpToDate m' w' = Ret (true, w')).
Proof.
  intros Hret Hok. pose proof Hret as (res & w1 & Hurl)%Download_after_listing.
  unfold Github.Download in Hret. rewrite Hurl in Hret.
  cbn [mbind Run_bind] in Hret.
  destruct res as [url|e]; [|by simplify_eq].
  assert (exists wc,
    match os_Open (Github.cache_blob m') wc with
    | inl r =>
        t ← Github.TargetFolder m';
        let '(err, fs') := extract r t (fs wc) in
        let w := set_fs fs' wc in
        match err with
        | Some e => Ret ({| err_error := Some e; retryable := false |}, m', w)
        | None =>
            t' ← Github.TargetFolder m';
            let versionFile := GoPath.Join [t'; ".version"] in
            match os_OpenFile_create versionFile w with
            | (Some _, w) =>
                Ret ({| err_error := Some ("Failed creating file " +:+ versionFile);
                        retryable := false |}, m', w)
            | (None, w) =>
                let w := WriteString versionFile (version m') w in
                Ret ({| err_error := None; retryable := false |}, m', w)
            end
        end
    | inr e => Ret ({| err_error := Some e; retryable := false |}, m', wc)
    end = Ret (derr, m', w')) as (wc & Hin).
  { destruct (os_Stat (Github.cache_blob m') w1); [|by exists w1].
    unfold http_Get in Hret.
    destruct (net w1 (length (requests w1)) url); [by simplify_eq|]. eauto. }
  clear Hret. rename Hin into Hret.
  destruct (os_Open (Github.cache_blob m') wc); [|by simplify_eq].
  destruct (Github.TargetFolder m') as [t| |] eqn:Ht; cbn [mbind Run_bind] in Hret;
    try discriminate.
  destruct (extract _ _ _) as [[e'|] fs']; [by simplify_eq|].
  unfold os_OpenFile_create in Hret.
  set (vf := GoPath.Join [t; ".version"]) in *.
  assert (exists old w2, fs w2 !! vf = Some (File old) /\
            w' = WriteString vf (version m') w2) as (old & w2 & Hold & ->).
  { destruct (fs (set_fs fs' wc) !! vf) as [[|old]|] eqn:Hlook; simplify_eq.
    - by exists old, (set_fs fs' wc).
    - eexists "", _. split; [|reflexivity]. simpl. by rewrite lookup_insert_eq. }
  exists t, (version m' +:+ string_drop (String.length (version m')) old).
  assert (fs (WriteString vf (version m') w2) !! vf
          = Some (File (version m' +:+ string_drop (String.length (version m')) old)))
    as Hfile.
  { unfold WriteString. rewrite Hold. simpl. by rewrite lookup_insert_eq. }
  split; [done|]. split; [done|]. split; [apply prefix_app|].
  intros [nd Hn] Hlen. apply prefix_length_eq in Hlen; [|apply prefix_app].
  unfold Github.IsUpToDate. rewrite Ht. cbn [mbind Run_bind].
  unfold os_Stat. rewrite Hn.
  destruct (String.eqb (version m') ""); [done|].
  unfold ioutil_ReadFile. fold vf. rewrite Hfile, Hlen.
  by rewrite String.eqb_refl.
Qed.

End Installed.

Lemma Download_success_installs_witness :
  exists derr m' w',
    Github.Download sample_Unmarshal sample_extract my_widget sample_world
    = Ret (derr, m', w') /\
    err_error derr = None /\
    Github.IsUpToDate m' w' = Ret (true, w').
Proof.
  destruct (Github.Download sample_Unmarshal sample_extract my_widget sample_world)
    as [[[derr m'] w']| |] eqn:Hret; [|by vm_compute in Hret..].
  assert (derr = {| err_error := None; retryable := false |} /\ m' = my_widget /\
          is_Some (fs w' !! "/srv/puppet/modules/widget") /\
          fs w' !! "/srv/puppet/modules/widget/.version" = Some (File "1.0.0"))
    as (Hd & Hm & Hdir & Hfile).
  { pose proof Hret as Hv. vm_compute in Hv. injection Hv as <- <- <-.
    repeat split. by eexists. }
  assert (err_error derr = None) as Hok by (by rewrite Hd).
  exists derr, m', w'. refine (conj eq_refl (conj Hok _)).
  destruct (Download_success_installs sample_Unmarshal sample_extract my_widget
              sample_world derr m' w' Hret Hok) as (t & c & Ht & Hc & _ & Hup).
  assert (t = "/srv/puppet/modules/widget") as ->.
  { rewrite Hm in Ht. vm_compute in Ht. by injection Ht as <-. }
  apply Hup; [exact Hdir|].
  change (GoPath.Join ["/srv/puppet/modules/widget"; ".version"])
    with "/srv/puppet/modules/widget/.version" in Hc.
  rewrite Hfile in Hc. injection Hc as <-. rewrite Hm. simpl. lia.
Defined.

(** X10: [IsUpToDate] only reads: it leaves the filesystem and the network
    as they are, and prints at most one line, which it does only when it
    answers no. *)
Theorem IsUpToDate_reads_only (m0 : GithubTarballModule) (w : World) (b : bool) w' :
  Github.IsUpToDate m0 w = Ret (b, w') ->
  fs w' = fs w /\ requests w' = requests w /\ locked w' = locked w /\
  net w' = net w /\
  (w' = w \/ (b = false /\ exists line, stdout w' = stdout w ++ [line])).
Proof.
  unfold Github.IsUpToDate. intros Hret.
  destruct (Github.TargetFolder m0); cbn [mbind Run_bind] in Hret; try discriminate.
  destruct (os_Stat _ w); [simplify_eq; by auto 10|].
  destruct (String.eqb (version m0) ""); [simplify_eq; by auto 10|].
  destruct (ioutil_ReadFile _ w) as [v|e]; simplify_eq; [by auto 10|].
  repeat split. right. split; [done|]. by eexists.
Qed.

Lemma IsUpToDate_reads_only_witness :
  exists b w',
    Github.IsUpToDate untagged_widget
      (world_of {[ "/srv/puppet/modules/widget" := Dir ]} (widget_host "[]"))
    = Ret (b, w') /\
    b = false /\ length (stdout w') = 1%nat /\
    fs w' = {[ "/srv/puppet/modules/widget" := Dir ]}.
Proof.
  set (w := world_of {[ "/srv/puppet/modules/widget" := Dir ]} (widget_host "[]")).
  destruct (Github.IsUpToDate untagged_widget w) as [[b w']| |] eqn:Hret;
    [|by vm_compute in Hret..].
  exists b, w'. split; [reflexivity|].
  pose proof (IsUpToDate_reads_only untagged_widget w b w' Hret) as (Hfs & _).
  assert (b = false /\ length (stdout w') = 1%nat) as [Hb Hout].
  { pose proof Hret as Hv. vm_compute in Hv. by simplify_eq. }
  exact (conj Hb (conj Hout Hfs)).
Defined.

(** ** The worker, result by result *)

Section WorkerExtras.

Context {M : Type} {ops : PuppetModule M}.

(** X11: the results a worker sends for one declaration are of three kinds
    and no other: a skipped result carries no error and announces no retry;
    a will-retry result carries a retryable error and is not skipped; a
    result without an error carries the empty error value.  The last result
    sent is the only one that announces no retry. *)
Theorem worker_result_kinds (m0 : M) w trace m' w' :
  downloadModule m0 w = Ret (trace, m', w') ->
  Forall (fun r =>
            (skipped r = true -> willRetry r = false /\ err r = no_error) /\
            (willRetry r = true ->
             is_error (err r) = true /\ retryable (err r) = true /\ skipped r = false) /\
            (is_error (err r) = false -> err r = no_error))
         (sent trace)
  /\ exists retries final,
       sent trace = retries ++ [final] /\
       willRetry final = false /\
       Forall (fun r => willRetry r = true) retries /\
       after_downloads m0 (m final).
Proof.
  intros Hret. apply downloadModule_shape in Hret
    as [(_ & _ & ->)|(w0 & t & d1 & m1 & w1 & more & derr & _ & _ & Hdl &
                       Hchain & _ & _ & ->)].
  - split; [by repeat constructor|].
    exists [], (skipped_result m0). repeat split; constructor.
  - assert (after_downloads m0 m') as Hafter.
    { econstructor; [exact Hdl|]. by eapply retried_after. }
    assert (Forall (fun r : DownloadResult M =>
                      willRetry r = true /\ is_error (err r) = true /\
                      retryable (err r) = true /\ skipped r = false)
                   (sent (retries_trace d1 m1 more))) as Hretries.
    { clear Hdl Hafter. induction Hchain as [|d ma wa d2 m2 w2 rest d' mb Hc _ _ IH];
        [constructor|].
      simpl. constructor; [|exact IH]. simpl.
      apply andb_prop in Hc as [-> ->]. done. }
    change ([EvRemoveAll t; EvDownload d1] ++ retries_trace d1 m1 more
            ++ [EvSend (final_result derr m')])
      with ([EvRemoveAll t; EvDownload d1]
            ++ (retries_trace d1 m1 more ++ [EvSend (final_result derr m')])).
    rewrite !sent_app. simpl.
    assert (willRetry (final_result derr m') = false /\
            skipped (final_result derr m') = false /\
            m (final_result derr m') = m' /\
            (is_error (err (final_result derr m')) = false ->
             err (final_result derr m') = no_error)) as (Hw & Hs & Hm & He).
    { unfold final_result. destruct (is_error derr) eqn:E; simpl; by rewrite ?E. }
    split.
    + apply Forall_app. split.
      * eapply Forall_impl; [exact Hretries|]. intros r (Hr1 & Hr2 & Hr3 & Hr4).
        repeat split; try done; congruence.
      * constructor; [|constructor]. repeat split; try done; congruence.
    + eexists _, _. split; [reflexivity|]. split; [done|]. split.
      * eapply Forall_impl; [exact Hretries|]. by intros r (? & _).
      * by rewrite Hm.
Qed.

(** The final results of a trace: those that announce no retry. *)
Lemma worker_final_result (m0 : M) w trace m' w' :
  downloadModule m0 w = Ret (trace, m', w') ->
  exists final,
    filter (fun r => willRetry r = false) (sent trace) = [final] /\
    after_downloads m0 (m final).
Proof.
  intros (_ & retries & final & -> & Hfinal & Hretries & Hafter)%worker_result_kinds.
  exists final. split; [|done]. rewrite filter_app, filter_cons_True by done.
  rewrite filter_none; [done|].
  eapply Forall_impl; [exact Hretries|]. intros r ->. done.
Qed.

(** X12: a worker that receives the declarations [c] one after the other
    sends one final result for each of them, in the order it received them,
    and downloads at most three times as often as it received
    declarations. *)
Theorem downloadModules_one_final_each (c : list M) : forall w trace w',
  downloadModules c w = Ret (trace, w') ->
  Forall2 after_downloads c
          (m <$> filter (fun r => willRetry r = false) (sent trace))
  /\ (length (downloads trace) <= 3 * length c)%nat.
Proof.
  induction c as [|m0 c IH]; intros w trace w' Hret.
  - simpl in Hret. simplify_eq. split; [constructor|simpl; lia].
  - cbn [downloadModules] in Hret.
    destruct (downloadModule m0 w) as [[[tr1 m1] w1]| |] eqn:Hone;
      cbn [mbind Run_bind] in Hret; try discriminate.
    destruct (downloadModules c w1) as [[tr2 w2]| |] eqn:Hrest;
      cbn [mbind Run_bind] in Hret; try discriminate.
    simplify_eq. apply IH in Hrest as [IH1 IH2].
    pose proof (worker_final_result _ _ _ _ _ Hone) as (final & Hfinal & Hafter).
    assert (length (downloads tr1) <= 3)%nat as Hmax.
    { apply downloadModule_traces in Hone
        as [->|[(? & ? & _ & ->)|[(? & ? & ? & ? & _ & _ & ->)
                                  |(? & ? & ? & ? & ? & ? & _ & _ & ->)]]];
        simpl; lia. }
    rewrite sent_app, downloads_app, filter_app, fmap_app, length_app, Hfinal.
    split; [by constructor|]. simpl. lia.
Qed.

End WorkerExtras.

Lemma worker_result_kinds_witness :
  exists trace m' w' retries final,
    downloadModule (ops := sample_ops) untagged_widget sample_world
    = Ret (trace, m', w') /\
    sent trace = retries ++ [final] /\ length retries = 2%nat /\
    willRetry final = false.
Proof.
  destruct (downloadModule (ops := sample_ops) untagged_widget sample_world)
    as [[[trace m'] w']| |] eqn:Hret; [|by vm_compute in Hret..].
  pose proof (worker_result_kinds (ops := sample_ops) untagged_widget sample_world
                trace m' w' Hret) as (_ & retries & final & Hsent & Hfinal & _).
  exists trace, m', w', retries, final.
  refine (conj eq_refl (conj Hsent (conj _ Hfinal))).
  assert (length (sent trace) = 3%nat) as Hlen.
  { pose proof Hret as Hv. vm_compute in Hv. by simplify_eq. }
  rewrite Hsent, length_app in Hlen. simpl in Hlen. lia.
Defined.

Lemma downloadModules_one_final_each_witness :
  exists trace w',
    downloadModules (ops := sample_ops) sample_out sample_world = Ret (trace, w') /\
    length (filter (fun r => willRetry r = false) (sent trace)) = 2%nat /\
    (length (downloads trace) <= 3 * length sample_out)%nat.
Proof.
  destruct (downloadModules (ops := sample_ops) sample_out sample_world)
    as [[trace w']| |] eqn:Hret; [|by vm_compute in Hret..].
  pose proof (downloadModules_one_final_each (ops := sample_ops) sample_out
                sample_world trace w' Hret) as (Hfinal & Hmax).
  exists trace, w'. refine (conj eq_refl (conj _ Hmax)).
  apply Forall2_length in Hfinal. rewrite length_fmap in Hfinal. by rewrite <- Hfinal.
Defined.

(** ** The aggregator's books *)

Section Books.

Context {M : Type} {ops : PuppetModule M} {moduleFile : Type}.
Variable NewMetadataFile : string -> option moduleFile.

Lemma parseResult_books deps (st st' : Aggregator moduleFile) (r : DownloadResult M) :
  parseResult NewMetadataFile deps st r = Ret st' ->
  metadataFiles st'
  = metadataFiles st ++ option_list (discovered NewMetadataFile deps r)
  /\ wg st' = wg st + Z.of_nat (length (option_list (discovered NewMetadataFile deps r)))
              - (if releases r then 1 else 0)
  /\ length (logged st') = (length (logged st) + (if logs r then 1 else 0))%nat.
Proof.
  unfold parseResult, discovered, releases, logs, is_error.
  destruct (err_error (err r)) as [e|]; simpl.
  - destruct (retryable (err r) && willRetry r); intros; simplify_eq; simpl;
      rewrite !app_nil_r, ?length_app; simpl; repeat split; lia.
  - intros Hret. destruct deps; simpl in Hret.
    + destruct (TargetFolder (m r)); simpl in Hret; try discriminate.
      destruct (NewMetadataFile _); simpl in Hret; simplify_eq; simpl;
        destruct (skipped r); simpl; rewrite ?app_nil_r, ?length_app; simpl;
        repeat split; lia.
    + simplify_eq. simpl. destruct (skipped r); simpl;
        rewrite ?app_nil_r, ?length_app; simpl; repeat split; lia.
Qed.

Lemma parseResults_loop_books deps results : forall (st st' : Aggregator moduleFile),
  parseResults_loop NewMetadataFile deps st results = Ret st' ->
  metadataFiles st'
  = metadataFiles st ++ omap (discovered NewMetadataFile deps) results
  /\ wg st' + Z.of_nat (length (done_calls st')) - Z.of_nat (length (metadataFiles st'))
     = wg st + Z.of_nat (length (done_calls st)) - Z.of_nat (length (metadataFiles st))
  /\ length (logged st')
     = (length (logged st) + length (filter (fun r => logs r = true) results))%nat.
Proof.
  induction results as [|r results IH]; intros st st' Hret.
  - simpl in Hret. simplify_eq. rewrite app_nil_r. simpl. repeat split; lia.
  - cbn [parseResults_loop] in Hret.
    destruct (parseResult NewMetadataFile deps st r) as [st1| |] eqn:Hone;
      cbn [mbind Run_bind] in Hret; try discriminate.
    pose proof (parseResult_accounts _ _ _ _ _ Hone) as [Hcalls _].
    apply parseResult_books in Hone as (Hmf & Hwg & Hlog).
    apply IH in Hret as (Hmf' & Hwg' & Hlog').
    split; [|split].
    + rewrite Hmf', Hmf, <- app_assoc. f_equal. simpl.
      by destruct (discovered NewMetadataFile deps r).
    + rewrite Hwg'. rewrite Hmf, Hcalls, !length_app.
      destruct (releases r); simpl; lia.
    + rewrite Hlog', Hlog, filter_cons. destruct (logs r); case_decide; simpl; try done; lia.
Qed.

Lemma discovered_no_deps (results : list (DownloadResult M)) :
  omap (discovered NewMetadataFile false) results = [].
Proof.
  induction results as [|r results IH]; [done|].
  assert (discovered NewMetadataFile false r = None) as Hr.
  { unfold discovered. by destruct (is_error (err r)). }
  simpl. rewrite Hr. exact IH.
Qed.

(** X13: the WaitGroup counter in the aggregator.  Whatever the results,
    the counter it ends with is the counter it started with, plus one for
    each metadata file it enqueued, minus one for each call of
    [Processed]. *)
Theorem parseResults_wg (results : list (DownloadResult M)) deps pending st :
  parseResults NewMetadataFile results deps pending = Ret st ->
  wg st = pending + Z.of_nat (length (metadataFiles st))
          - Z.of_nat (length (done_calls st)).
Proof.
  intros (_ & Hwg & _)%parseResults_loop_books. simpl in Hwg. lia.
Qed.

(** X14: with transitive discovery disabled the aggregator always runs to
    the end and enqueues no metadata file. *)
Theorem parseResults_no_deps (results : list (DownloadResult M)) pending :
  exists st,
    parseResults NewMetadataFile results false pending = Ret st /\
    metadataFiles st = [].
Proof.
  unfold parseResults.
  assert (forall st0 : Aggregator moduleFile, exists st,
            parseResults_loop NewMetadataFile false st0 results = Ret st) as Htotal.
  { induction results as [|r results IH]; intros st0; [by eexists|].
    cbn [parseResults_loop].
    assert (exists st1, parseResult NewMetadataFile false st0 r = Ret st1) as [st1 ->].
    { unfold parseResult. destruct (err_error (err r)); [|by eexists].
      destruct (retryable (err r) && willRetry r); by eexists. }
    apply IH. }
  destruct (Htotal (Aggregator_start pending)) as [st Hst]. exists st.
  split; [done|]. apply parseResults_loop_books in Hst as (-> & _). simpl.
  apply discovered_no_deps.
Qed.

(** X15: the aggregator writes exactly one log line for each result that is
    not a skipped result (one for each will-retry result, each terminal
    failure and each success) and none for a skipped result. *)
Theorem parseResults_log_lines (results : list (DownloadResult M)) deps pending st :
  parseResults NewMetadataFile results deps pending = Ret st ->
  length (logged st) = length (filter (fun r => logs r = true) results).
Proof. by intros (_ & _ & ->)%parseResults_loop_books. Qed.

(** X16: the order in which the results arrive changes neither the exit
    code, nor the closures called, nor the metadata files enqueued, nor the
    counter of pending work, nor the number of log lines. *)
Theorem parseResults_order_irrelevant
    (results results' : list (DownloadResult M)) deps pending st st' :
  results ≡ₚ results' ->
  parseResults NewMetadataFile results deps pending = Ret st ->
  parseResults NewMetadataFile results' deps pending = Ret st' ->
  Z.of_nat (length results) < 2 ^ 63 ->
  exit_code st = exit_code st'
  /\ done_calls st ≡ₚ done_calls st'
  /\ metadataFiles st ≡ₚ metadataFiles st'
  /\ wg st = wg st'
  /\ length (logged st) = length (logged st').
Proof.
  intros Hperm Hst Hst' Hsmall.
  pose proof (parseResults_wg _ _ _ _ Hst) as Hwg.
  pose proof (parseResults_wg _ _ _ _ Hst') as Hwg'.
  pose proof (parseResults_log_lines _ _ _ _ Hst) as Hlog.
  pose proof (parseResults_log_lines _ _ _ _ Hst') as Hlog'.
  pose proof Hst as (Hmf & _)%parseResults_loop_books.
  pose proof Hst' as (Hmf' & _)%parseResults_loop_books.
  apply parseResults_loop_accounts in Hst as [Hcalls Herrs].
  apply parseResults_loop_accounts in Hst' as [Hcalls' Herrs'].
  simpl in *.
  assert (done_calls st ≡ₚ done_calls st') as Hdone by (by rewrite Hcalls, Hcalls', Hperm).
  assert (metadataFiles st ≡ₚ metadataFiles st') as Hmfs by (by rewrite Hmf, Hmf', Hperm).
  split; [|split; [done|split; [done|split]]].
  - unfold exit_code. rewrite Herrs, Herrs' by (rewrite <- ?Hperm; lia).
    by rewrite Hperm.
  - rewrite Hwg, Hwg'. by rewrite Hdone, Hmfs.
  - by rewrite Hlog, Hlog', Hperm.
Qed.

End Books.

Lemma parseResults_wg_witness :
  parseResults (ops := sample_ops) (NewMetadataFile_in ∅) sample_results true 3
  = Ret sample_end /\
  wg sample_end = 3 + Z.of_nat (length (metadataFiles sample_end))
                  - Z.of_nat (length (done_calls sample_end)).
Proof.
  exact (conj sample_parsed
           (parseResults_wg (ops := sample_ops) (NewMetadataFile_in ∅)
              sample_results true 3 sample_end sample_parsed)).
Defined.

Lemma parseResults_log_lines_witness :
  parseResults (ops := sample_ops) (NewMetadataFile_in ∅) sample_results true 3
  = Ret sample_end /\
  length (logged sample_end)
  = length (filter (fun r => logs r = true) sample_results).
Proof.
  exact (conj sample_parsed
           (parseResults_log_lines (ops := sample_ops) (NewMetadataFile_in ∅)
              sample_results true 3 sample_end sample_parsed)).
Defined.

Lemma parseResults_order_irrelevant_witness :
  exists st',
    sample_results ≡ₚ rev sample_results /\
    parseResults (ops := sample_ops) (NewMetadataFile_in ∅) sample_results true 3
    = Ret sample_end /\
    parseResults (ops := sample_ops) (NewMetadataFile_in ∅) (rev sample_results) true 3
    = Ret st' /\
    Z.of_nat (length sample_results) < 2 ^ 63 /\
    exit_code sample_end = exit_code st' /\
    logged sample_end <> logged st'.
Proof.
  destruct (parseResults (ops := sample_ops) (NewMetadataFile_in ∅)
              (rev sample_results) true 3) as [st'| |] eqn:Hst';
    [|by vm_compute in Hst'..].
  exists st'.
  assert (sample_results ≡ₚ rev sample_results) as Hperm by apply Permutation_rev.
  assert (Z.of_nat (length sample_results) < 2 ^ 63) as Hsmall
    by (vm_compute; reflexivity).
  refine (conj Hperm (conj sample_parsed (conj eq_refl (conj Hsmall _)))).
  split.
  - exact (proj1 (parseResults_order_irrelevant (ops := sample_ops)
                    (NewMetadataFile_in ∅) sample_results (rev sample_results)
                    true 3 sample_end st' Hperm sample_parsed Hst' Hsmall)).
  - pose proof Hst' as Hv. vm_compute in Hv. injection Hv as <-.
    vm_compute. discriminate.
Defined.
